(** * RF433 sniffer/sender: the signal archive of [src/main.cpp]

    A shallow embedding of the firmware's signal archive (the global
    [storedSignals] vector, its duplicate check, the automatic cleanup,
    the age purge and the snapshot kept in [Preferences]) together with
    the capture path [handleReceivedSignal] and the web handlers that
    mutate the archive.

    Conventions.
    - [unsigned long], [unsigned int] and [int] values are integers in [Z];
      on the ESP32 all three are 32 bits wide.  Two computations of the
      source can leave that range, and their wrap-around is written out:
      the cut-off time of the age purge ([cutoffTime], modulo [2^32]) and
      the increment of the name counter ([int_of]).  Sizes stay far below
      the bound.
    - Loop passes and web requests are taken one at a time.
    - [millis()] and the radio receiver are inputs of the functions that
      read them.
    - The calls to the buzzer, the LED and the transmitter are recorded, in
      call order, in the [outputs] field of the device state. *)

From stdpp Require Import base decidable list strings gmap pretty sorting.
From Stdlib Require Import ZArith Lia Ascii.

Open Scope Z_scope.

(** ** Data model *)

(** [struct RFSignal]. *)
Record RFSignal : Type := mkRFSignal {
  name : string;
  value : Z;
  bitLength : Z;
  protocol : Z;
  timestamp : Z;
  isFavorite : bool
}.

Definition MAX_SIGNALS : Z := 1000.
Definition AUTO_CLEANUP_THRESHOLD : Z := 950.

(** Width of [unsigned long] on the target. *)
Definition ULONG_MODULUS : Z := 2 ^ 32.

(** The value an [int] holds after an arithmetic result [z]: 32 bits, two's
    complement.  The language leaves signed overflow undefined; the
    target's compiler wraps, and so does the model. *)
Definition int_of (z : Z) : Z := (z + 2 ^ 31) mod 2 ^ 32 - 2 ^ 31.

(** The decoded reading held by the receiver ([getReceivedValue],
    [getReceivedBitlength], [getReceivedProtocol]). *)
Record Reading : Type := mkReading {
  rx_value : Z;
  rx_bitLength : Z;
  rx_protocol : Z
}.

(** The branch taken by [handleReceivedSignal] for a non-zero reading, named
    after the line it prints: "Signal stored (n/1000)", "Duplicate signal
    ignored." and "Storage full! Signal not saved.". *)
Inductive InsertOutcome : Type :=
  | Stored (newSize : Z)
  | Duplicate
  | StorageFull.

(** What the device does to the outside, besides answering requests: calls
    to the buzzer and LED routines, and codes sent by the transmitter
    ([mySwitch.setProtocol] followed by [mySwitch.send]). *)
Inductive Output : Type :=
  | PlayReceiveSound
  | PlayTransmitSound
  | PlayStartupSound
  | FlashLED (duration times : Z)
  | RadioSend (proto val bits : Z).

(** ** The [Preferences] store: typed values under string keys *)

Inductive PrefValue : Type :=
  | PInt (z : Z)
  | PUInt (z : Z)
  | PULong (z : Z)
  | PBool (b : bool)
  | PString (s : string).

Definition getInt (key : string) (def : Z) (p : gmap string PrefValue) : Z :=
  match p !! key with Some (PInt z) => z | _ => def end.
Definition getUInt (key : string) (def : Z) (p : gmap string PrefValue) : Z :=
  match p !! key with Some (PUInt z) => z | _ => def end.
Definition getULong (key : string) (def : Z) (p : gmap string PrefValue) : Z :=
  match p !! key with Some (PULong z) => z | _ => def end.
Definition getBool (key : string) (def : bool) (p : gmap string PrefValue) : bool :=
  match p !! key with Some (PBool b) => b | _ => def end.
Definition getString (key : string) (def : string) (p : gmap string PrefValue) : string :=
  match p !! key with Some (PString s) => s | _ => def end.

Definition putInt (key : string) (z : Z) (p : gmap string PrefValue) :=
  <[key := PInt z]> p.
Definition putUInt (key : string) (z : Z) (p : gmap string PrefValue) :=
  <[key := PUInt z]> p.
Definition putULong (key : string) (z : Z) (p : gmap string PrefValue) :=
  <[key := PULong z]> p.
Definition putBool (key : string) (b : bool) (p : gmap string PrefValue) :=
  <[key := PBool b]> p.
Definition putString (key : string) (s : string) (p : gmap string PrefValue) :=
  <[key := PString s]> p.

(** ** Device state: the globals of the sketch *)

Record Device : Type := mkDevice {
  storedSignals : list RFSignal;
  signalCount : Z;
  lastSignalTime : Z;
  sniffingEnabled : bool;
  buzzerEnabled : bool;
  ledEnabled : bool;
  preferences : gmap string PrefValue;
  outputs : list Output
}.

Definition set_storedSignals (l : list RFSignal) (d : Device) : Device :=
  mkDevice l (signalCount d) (lastSignalTime d) (sniffingEnabled d)
    (buzzerEnabled d) (ledEnabled d) (preferences d) (outputs d).
Definition set_signalCount (c : Z) (d : Device) : Device :=
  mkDevice (storedSignals d) c (lastSignalTime d) (sniffingEnabled d)
    (buzzerEnabled d) (ledEnabled d) (preferences d) (outputs d).
Definition set_lastSignalTime (t : Z) (d : Device) : Device :=
  mkDevice (storedSignals d) (signalCount d) t (sniffingEnabled d)
    (buzzerEnabled d) (ledEnabled d) (preferences d) (outputs d).
Definition set_sniffingEnabled (b : bool) (d : Device) : Device :=
  mkDevice (storedSignals d) (signalCount d) (lastSignalTime d) b
    (buzzerEnabled d) (ledEnabled d) (preferences d) (outputs d).
Definition set_buzzerEnabled (b : bool) (d : Device) : Device :=
  mkDevice (storedSignals d) (signalCount d) (lastSignalTime d)
    (sniffingEnabled d) b (ledEnabled d) (preferences d) (outputs d).
Definition set_ledEnabled (b : bool) (d : Device) : Device :=
  mkDevice (storedSignals d) (signalCount d) (lastSignalTime d)
    (sniffingEnabled d) (buzzerEnabled d) b (preferences d) (outputs d).
Definition set_preferences (p : gmap string PrefValue) (d : Device) : Device :=
  mkDevice (storedSignals d) (signalCount d) (lastSignalTime d)
    (sniffingEnabled d) (buzzerEnabled d) (ledEnabled d) p (outputs d).
Definition emit (f : Output) (d : Device) : Device :=
  mkDevice (storedSignals d) (signalCount d) (lastSignalTime d)
    (sniffingEnabled d) (buzzerEnabled d) (ledEnabled d) (preferences d)
    (outputs d ++ [f]).

(** [storedSignals.size()] as the integer the source compares it with. *)
Definition size_of (l : list RFSignal) : Z := Z.of_nat (length l).

(** ** [std::sort]

    The source sorts with the library's [std::sort], which is not stable and
    whose algorithm is the implementation's choice.  The embedding therefore
    takes the sort as an interface with the contract of the C++ standard: for
    a comparator that is a strict weak ordering the result is a permutation
    of the input in which no later element compares less than an earlier
    one. *)

Definition StrictWeakOrder {A : Type} (comp : A → A → bool) : Prop :=
  (∀ a, comp a a = false) ∧
  (∀ a b c, comp a b = true → comp b c = true → comp a c = true) ∧
  (∀ a b c, comp a b = false → comp b a = false →
            comp b c = false → comp c b = false →
            comp a c = false ∧ comp c a = false).

Class StdSort : Type := {
  std_sort : ∀ {A : Type}, (A → A → bool) → list A → list A;
  std_sort_perm : ∀ (A : Type) (comp : A → A → bool) (l : list A),
    StrictWeakOrder comp → std_sort comp l ≡ₚ l;
  std_sort_sorted : ∀ (A : Type) (comp : A → A → bool) (l : list A),
    StrictWeakOrder comp →
    StronglySorted (λ a b, comp b a = false) (std_sort comp l)
}.

(** One implementation of the interface: insertion sort, which is what
    the usual library implementations run on short ranges. *)
Fixpoint insert_sorted {A : Type} (comp : A → A → bool) (x : A) (l : list A)
    : list A :=
  match l with
  | [] => [x]
  | y :: t => if comp x y then x :: y :: t else y :: insert_sorted comp x t
  end.

Fixpoint insertion_sort {A : Type} (comp : A → A → bool) (l : list A)
    : list A :=
  match l with
  | [] => []
  | x :: t => insert_sorted comp x (insertion_sort comp t)
  end.

(** ** The archive operations *)

(** [isDuplicate]: linear scan for a stored signal with the same value,
    bit length and protocol. *)
Fixpoint isDuplicate (newSignal : RFSignal) (stored : list RFSignal) : bool :=
  match stored with
  | [] => false
  | signal :: rest =>
      if (value signal =? value newSignal)
         && (bitLength signal =? bitLength newSignal)
         && (protocol signal =? protocol newSignal)
      then true
      else isDuplicate newSignal rest
  end.

(** The comparator handed to [std::sort] in [performAutoCleanup]. *)
Definition cleanup_less (a b : RFSignal) : bool :=
  if isFavorite a && negb (isFavorite b) then false
  else if negb (isFavorite a) && isFavorite b then true
  else timestamp a <? timestamp b.

(** [int signalsToRemove = MAX_SIGNALS * 0.2]: the product is the double
    200.0 (the error of the constant 0.2 times 1000 is below half a unit in
    the last place), and the conversion to [int] gives 200. *)
Definition signalsToRemove : Z := MAX_SIGNALS * 2 / 10.

(** The erase loop of [performAutoCleanup]: walks the vector from the front
    and erases non-favorites until [signalsToRemove] have been erased or the
    end is reached.  Returns the vector left and the final [removedCount]. *)
Fixpoint erase_oldest (l : list RFSignal) (removedCount : Z)
    : list RFSignal * Z :=
  match l with
  | [] => ([], removedCount)
  | s :: rest =>
      if removedCount <? signalsToRemove then
        if negb (isFavorite s) then erase_oldest rest (removedCount + 1)
        else
          let '(kept, n) := erase_oldest rest removedCount in (s :: kept, n)
      else (l, removedCount)
  end.

(** [saveStoredSignals]: the key of field [field] of entry [i]. *)
Definition sigKey (i : nat) (field : string) : string :=
  "sig" +:+ pretty i +:+ "_" +:+ field.

Definition save_entry (i : nat) (signal : RFSignal)
    (p : gmap string PrefValue) : gmap string PrefValue :=
  putBool (sigKey i "fav") (isFavorite signal)
    (putULong (sigKey i "time") (timestamp signal)
      (putUInt (sigKey i "proto") (protocol signal)
        (putUInt (sigKey i "bits") (bitLength signal)
          (putULong (sigKey i "val") (value signal)
            (putString (sigKey i "name") (name signal) p))))).

Fixpoint save_entries (i : nat) (l : list RFSignal)
    (p : gmap string PrefValue) : gmap string PrefValue :=
  match l with
  | [] => p
  | signal :: rest => save_entries (S i) rest (save_entry i signal p)
  end.

Definition saveStoredSignals (d : Device) : Device :=
  set_preferences
    (save_entries 0 (storedSignals d)
       (putInt "nextId" (signalCount d)
          (putInt "signalCount" (size_of (storedSignals d)) (preferences d))))
    d.

(** [loadStoredSignals]: one iteration of the loop reads entry [i]. *)
Definition load_entry (i : nat) (p : gmap string PrefValue) : RFSignal :=
  {| name := getString (sigKey i "name") "" p;
     value := getULong (sigKey i "val") 0 p;
     bitLength := getUInt (sigKey i "bits") 0 p;
     protocol := getUInt (sigKey i "proto") 0 p;
     timestamp := getULong (sigKey i "time") 0 p;
     isFavorite := getBool (sigKey i "fav") false p |}.

(** [n] iterations starting at index [i], pushing onto [acc]. *)
Fixpoint load_entries (n : nat) (i : nat) (p : gmap string PrefValue)
    (acc : list RFSignal) : list RFSignal :=
  match n with
  | O => acc
  | S n' =>
      let signal := load_entry i p in
      load_entries n' (S i) p
        (if value signal =? 0 then acc else acc ++ [signal])
  end.

Definition loadStoredSignals (d : Device) : Device :=
  let count := getInt "signalCount" 0 (preferences d) in
  let d1 := set_signalCount (getInt "nextId" 0 (preferences d)) d in
  set_storedSignals
    (load_entries (Z.to_nat count) 0 (preferences d) (storedSignals d1)) d1.

Section Firmware.
Context `{StdSort}.

(** [performAutoCleanup], on the vector: sort, then erase from the
    front.  The second component is [removedCount]. *)
Definition cleanup_signals (l : list RFSignal) : list RFSignal * Z :=
  erase_oldest (std_sort cleanup_less l) 0.

Definition performAutoCleanup (d : Device) : Device :=
  saveStoredSignals
    (set_storedSignals (fst (cleanup_signals (storedSignals d))) d).

(** The storage step of [handleReceivedSignal] (lines 148-165). *)
Definition store_signal (newSignal : RFSignal) (d : Device)
    : Device * InsertOutcome :=
  if negb (isDuplicate newSignal (storedSignals d)) then
    let d1 :=
      if AUTO_CLEANUP_THRESHOLD <=? size_of (storedSignals d)
      then performAutoCleanup d else d in
    if size_of (storedSignals d1) <? MAX_SIGNALS then
      let d2 :=
        saveStoredSignals
          (set_storedSignals (storedSignals d1 ++ [newSignal]) d1) in
      (d2, Stored (size_of (storedSignals d2)))
    else (d1, StorageFull)
  else (d, Duplicate).

(** [handleReceivedSignal].  [now] is the value of [millis()] when the
    signal is built, [later] its value at the end of the function.  The
    result is [None] for a zero reading. *)
Definition handleReceivedSignal (rx : Reading) (now later : Z) (d : Device)
    : Device * option InsertOutcome :=
  if negb (rx_value rx =? 0) then
    let newSignal :=
      {| name := "Signal_" +:+ pretty (signalCount d);
         value := rx_value rx;
         bitLength := rx_bitLength rx;
         protocol := rx_protocol rx;
         timestamp := now;
         isFavorite := false |} in
    let d0 := set_signalCount (int_of (signalCount d + 1)) d in
    let '(d1, outcome) := store_signal newSignal d0 in
    let d2 := if buzzerEnabled d1 then emit PlayReceiveSound d1 else d1 in
    let d3 := if ledEnabled d2 then emit (FlashLED 100 3) d2 else d2 in
    (set_lastSignalTime later d3, Some outcome)
  else (d, None).

(** One pass of [loop]: [rx] is [Some] reading when [receiver.available()]. *)
Definition loop (rx : option Reading) (now later : Z) (d : Device) : Device :=
  match rx with
  | Some r =>
      if sniffingEnabled d then fst (handleReceivedSignal r now later d)
      else d
  | None => d
  end.
(** [transmitSignal]. *)
Definition transmitSignal (signal : RFSignal) (d : Device) : Device :=
  let d1 :=
    emit (RadioSend (protocol signal) (value signal) (bitLength signal)) d in
  let d2 := if buzzerEnabled d1 then emit PlayTransmitSound d1 else d1 in
  if ledEnabled d2 then emit (FlashLED 200 2) d2 else d2.

(** ** The web handlers

    A POST parameter is [None] when [hasParam] is false.  Boolean parameters
    are the raw strings, compared with ["true"] as in the source; an [id] or
    [days] parameter is the integer that [toInt()] made of it.  Each handler
    returns the new state and the HTTP status it sends; the two cleanup
    handlers return the [removedCount] they report instead. *)

Definition valid_id (id : Z) (d : Device) : bool :=
  (0 <=? id) && (id <? size_of (storedSignals d)).

Definition api_sniffing (enabled : option string) (d : Device) : Device * Z :=
  match enabled with
  | Some v =>
      let b := String.eqb v "true" in
      let d1 := set_sniffingEnabled b d in
      (set_preferences (putBool "sniffingEnabled" b (preferences d1)) d1, 200)
  | None => (d, 400)
  end.

Definition api_buzzer (enabled : option string) (d : Device) : Device * Z :=
  match enabled with
  | Some v =>
      let b := String.eqb v "true" in
      let d1 := set_buzzerEnabled b d in
      (set_preferences (putBool "buzzerEnabled" b (preferences d1)) d1, 200)
  | None => (d, 400)
  end.

Definition api_led (enabled : option string) (d : Device) : Device * Z :=
  match enabled with
  | Some v =>
      let b := String.eqb v "true" in
      let d1 := set_ledEnabled b d in
      (set_preferences (putBool "ledEnabled" b (preferences d1)) d1, 200)
  | None => (d, 400)
  end.

Definition api_transmit (id : option Z) (d : Device) : Device * Z :=
  match id with
  | Some id =>
      if valid_id id d then
        match storedSignals d !! Z.to_nat id with
        | Some signal => (transmitSignal signal d, 200)
        | None => (d, 400)
        end
      else (d, 400)
  | None => (d, 400)
  end.

(** DELETE /api/signals: [storedSignals.erase(storedSignals.begin() + id)]. *)
Definition api_delete (id : option Z) (d : Device) : Device * Z :=
  match id with
  | Some id =>
      if valid_id id d then
        (saveStoredSignals
           (set_storedSignals (delete (Z.to_nat id) (storedSignals d)) d), 200)
      else (d, 400)
  | None => (d, 400)
  end.

Definition set_name (n : string) (s : RFSignal) : RFSignal :=
  mkRFSignal n (value s) (bitLength s) (protocol s) (timestamp s)
    (isFavorite s).
Definition set_isFavorite (b : bool) (s : RFSignal) : RFSignal :=
  mkRFSignal (name s) (value s) (bitLength s) (protocol s) (timestamp s) b.

Definition api_rename (id : option Z) (newName : option string) (d : Device)
    : Device * Z :=
  match id, newName with
  | Some id, Some n =>
      if valid_id id d then
        (saveStoredSignals
           (set_storedSignals
              (alter (set_name n) (Z.to_nat id) (storedSignals d)) d), 200)
      else (d, 400)
  | _, _ => (d, 400)
  end.

Definition api_favorite (id : option Z) (favorite : option string)
    (d : Device) : Device * Z :=
  match id, favorite with
  | Some id, Some v =>
      let b := String.eqb v "true" in
      if valid_id id d then
        (saveStoredSignals
           (set_storedSignals
              (alter (set_isFavorite b) (Z.to_nat id) (storedSignals d)) d),
         200)
      else (d, 400)
  | _, _ => (d, 400)
  end.

Definition api_clear (d : Device) : Device * Z :=
  (saveStoredSignals (set_signalCount 0 (set_storedSignals [] d)), 200).

(** POST /api/cleanup: the count reported is the drop in size. *)
Definition api_cleanup (d : Device) : Device * Z :=
  let originalCount := size_of (storedSignals d) in
  let d1 := performAutoCleanup d in
  (d1, originalCount - size_of (storedSignals d1)).

(** [millis() - (daysOld * 24 * 60 * 60 * 1000UL)] in [unsigned long]:
    the product and the difference are taken modulo [2^32].  (For
    [|daysOld| > 24855] the [int] subproduct [daysOld * 24 * 60 * 60]
    overflows, which the language leaves undefined; the model wraps.) *)
Definition cutoffTime (now daysOld : Z) : Z :=
  (now - (daysOld * 24 * 60 * 60 * 1000) mod ULONG_MODULUS) mod ULONG_MODULUS.

(** The erase loop of POST /api/cleanup/old. *)
Fixpoint purge_old (cutoff : Z) (l : list RFSignal) : list RFSignal :=
  match l with
  | [] => []
  | s :: rest =>
      if negb (isFavorite s) && (timestamp s <? cutoff)
      then purge_old cutoff rest
      else s :: purge_old cutoff rest
  end.

(** POST /api/cleanup/old; [now] is the value of [millis()]. *)
Definition api_cleanup_old (days : option Z) (now : Z) (d : Device)
    : Device * Z :=
  let daysOld := match days with Some n => n | None => 7 end in
  let originalCount := size_of (storedSignals d) in
  let d1 :=
    set_storedSignals
      (purge_old (cutoffTime now daysOld) (storedSignals d)) d in
  let removedCount := originalCount - size_of (storedSignals d1) in
  (saveStoredSignals d1, removedCount).

(** [setup], as far as the archive is concerned, when the file system
    mounts: the globals get their initial values, the flags and the archive
    are read from the store [p], and the start-up sound plays. *)
Definition setup (p : gmap string PrefValue) : Device :=
  let d :=
    {| storedSignals := [];
       signalCount := 0;
       lastSignalTime := 0;
       sniffingEnabled := getBool "sniffingEnabled" true p;
       buzzerEnabled := getBool "buzzerEnabled" true p;
       ledEnabled := getBool "ledEnabled" true p;
       preferences := p;
       outputs := [] |} in
  emit PlayStartupSound (loadStoredSignals d).

(** ** Runs of the device *)

Inductive Request : Type :=
  | LoopPass (rx : option Reading) (now later : Z)
  | ApiSniffing (enabled : option string)
  | ApiBuzzer (enabled : option string)
  | ApiLed (enabled : option string)
  | ApiTransmit (id : option Z)
  | ApiDelete (id : option Z)
  | ApiRename (id : option Z) (newName : option string)
  | ApiFavorite (id : option Z) (favorite : option string)
  | ApiClear
  | ApiCleanup
  | ApiCleanupOld (days : option Z) (now : Z)
  | Reboot.

Definition step (r : Request) (d : Device) : Device :=
  match r with
  | LoopPass rx now later => loop rx now later d
  | ApiSniffing e => fst (api_sniffing e d)
  | ApiBuzzer e => fst (api_buzzer e d)
  | ApiLed e => fst (api_led e d)
  | ApiTransmit id => fst (api_transmit id d)
  | ApiDelete id => fst (api_delete id d)
  | ApiRename id n => fst (api_rename id n d)
  | ApiFavorite id f => fst (api_favorite id f d)
  | ApiClear => fst (api_clear d)
  | ApiCleanup => fst (api_cleanup d)
  | ApiCleanupOld days now => fst (api_cleanup_old days now d)
  | Reboot => setup (preferences d)
  end.

(** The states the device can be in: it first boots with an empty store,
    and then serves any sequence of loop passes, requests and reboots. *)
Inductive Reachable : Device → Prop :=
  | Reachable_boot : Reachable (setup ∅)
  | Reachable_step r d : Reachable d → Reachable (step r d).

End Firmware.

(** * The rest of the sketch *)

(** ** The feedback routines, as the hardware calls they make *)

Inductive HwCall : Type :=
  | LedcWriteTone (channel freq : Z)
  | Delay (ms : Z)
  | DigitalWrite (pin : Z) (high : bool).

Definition LED_BUILTIN : Z := 2.

Definition playReceiveSound : list HwCall :=
  [LedcWriteTone 0 1000; Delay 100; LedcWriteTone 0 0; Delay 20;
   LedcWriteTone 0 1500; Delay 100; LedcWriteTone 0 0].

Definition playTransmitSound : list HwCall :=
  [LedcWriteTone 0 2000; Delay 150; LedcWriteTone 0 0; Delay 20;
   LedcWriteTone 0 1500; Delay 150; LedcWriteTone 0 0].

(** [for (int i = 0; i < 3; i++)]: [n] iterations are left, the next one
    has index [i]. *)
Fixpoint startup_loop (n : nat) (i : Z) : list HwCall :=
  match n with
  | O => []
  | S n' =>
      [LedcWriteTone 0 (800 + i * 200); Delay 200;
       LedcWriteTone 0 0; Delay 50]
      ++ startup_loop n' (i + 1)
  end.

Definition playStartupSound : list HwCall := startup_loop 3 0.

(** [for (int i = 0; i < times; i++)]: [n] iterations are left.  [delay]
    takes an unsigned 32-bit number of milliseconds, to which the [int]
    [duration] is converted. *)
Fixpoint flash_loop (n : nat) (duration : Z) : list HwCall :=
  match n with
  | O => []
  | S n' =>
      [DigitalWrite LED_BUILTIN true; Delay (duration mod ULONG_MODULUS);
       DigitalWrite LED_BUILTIN false; Delay (duration mod ULONG_MODULUS)]
      ++ flash_loop n' duration
  end.

Definition flashLED (duration times : Z) : list HwCall :=
  flash_loop (Z.to_nat times) duration.

(** The hardware calls behind one entry of the [outputs] trace.  What the
    transmitter library does to its pin during [send] is not part of the
    sketch. *)
Definition hardware_of (o : Output) : list HwCall :=
  match o with
  | PlayReceiveSound => playReceiveSound
  | PlayTransmitSound => playTransmitSound
  | PlayStartupSound => playStartupSound
  | FlashLED duration times => flashLED duration times
  | RadioSend _ _ _ => []
  end.

(** The time spent in [delay], the frequency the buzzer is left at and the
    level the LED pin is left at by a sequence of calls. *)
Fixpoint delayed (calls : list HwCall) : Z :=
  match calls with
  | [] => 0
  | Delay ms :: rest => ms + delayed rest
  | _ :: rest => delayed rest
  end.

Fixpoint tone_after (freq : Z) (calls : list HwCall) : Z :=
  match calls with
  | [] => freq
  | LedcWriteTone _ f :: rest => tone_after f rest
  | _ :: rest => tone_after freq rest
  end.

Fixpoint led_after (high : bool) (calls : list HwCall) : bool :=
  match calls with
  | [] => high
  | DigitalWrite pin level :: rest =>
      led_after (if pin =? LED_BUILTIN then level else high) rest
  | _ :: rest => led_after high rest
  end.

(** ** GET /api/status: the favorite count (lines 341-346) *)

Fixpoint count_favorites (l : list RFSignal) (favoriteCount : Z) : Z :=
  match l with
  | [] => favoriteCount
  | signal :: rest =>
      count_favorites rest
        (if isFavorite signal then favoriteCount + 1 else favoriteCount)
  end.

(** ** [setup] when the file system does not mount

    [setup] returns before it opens the store, enables the receiver or
    starts the web server: the globals keep their initial values. *)
Definition initial_globals (p : gmap string PrefValue) : Device :=
  {| storedSignals := [];
     signalCount := 0;
     lastSignalTime := 0;
     sniffingEnabled := false;
     buzzerEnabled := true;
     ledEnabled := true;
     preferences := p;
     outputs := [] |}.

Definition setup_mounting (mounted : bool) (p : gmap string PrefValue)
    : Device :=
  if mounted then setup p else initial_globals p.

(** ** Runs *)

Section Runs.
Context `{StdSort}.

(** The device after serving the requests [rs] in order. *)
Definition run (rs : list Request) (d : Device) : Device :=
  foldl (λ d r, step r d) d rs.

(** The device after the loop has run once for each entry of [passes]. *)
Definition loop_passes (passes : list (option Reading * Z * Z))
    (d : Device) : Device :=
  foldl (λ d '(rx, now, later), loop rx now later d) d passes.

End Runs.

Definition is_rename (r : Request) : bool :=
  match r with ApiRename _ _ => true | _ => false end.

(** A name of the form the capture path gives, with a number below
    [bound]. *)
Definition auto_named (bound : Z) (s : RFSignal) : Prop :=
  ∃ k, k < bound ∧ name s = "Signal_" +:+ pretty k.

(** * Vocabulary of the statements, and example devices *)

(** Age order: [a] was captured no later than [b]. *)
Definition by_age (a b : RFSignal) : Prop := timestamp a ≤ timestamp b.

(** The non-favorites and the favorites of a vector, in vector order. *)
Definition nonFavorites (l : list RFSignal) : list RFSignal :=
  filter (λ s, isFavorite s = false) l.
Definition favorites (l : list RFSignal) : list RFSignal :=
  filter (λ s, isFavorite s = true) l.

(** The number of signals a cleanup of [l] erases. *)
Definition quota (l : list RFSignal) : nat :=
  Nat.min (Z.to_nat signalsToRemove) (length (nonFavorites l)).

(** Decimal digits, of which [String(i)] is made. *)
Definition is_digit (c : ascii) : bool :=
  (48 <=? Z.of_nat (nat_of_ascii c)) && (Z.of_nat (nat_of_ascii c) <=? 57).

Fixpoint digits (s : string) : bool :=
  match s with
  | EmptyString => true
  | String c s' => is_digit c && digits s'
  end.

(** The keys of the store that are not entry keys. *)
Definition meta_key (k : string) : Prop :=
  k = "signalCount" ∨ k = "nextId" ∨ k = "sniffingEnabled"
  ∨ k = "buzzerEnabled" ∨ k = "ledEnabled".

(** The archive that a boot reads from the store [p]. *)
Definition persisted (p : gmap string PrefValue) : list RFSignal :=
  load_entries (Z.to_nat (getInt "signalCount" 0 p)) 0 p [].

(** The deduplication key of a signal. *)
Definition triple (s : RFSignal) : Z * Z * Z :=
  (value s, bitLength s, protocol s).

(** The invariant of the device: no stored value is zero, the triples are
    pairwise distinct, the vector is within capacity, and the store holds
    the vector. *)
Record Inv (d : Device) : Prop := mkInv {
  inv_nonzero : Forall (λ s, value s ≠ 0) (storedSignals d);
  inv_unique : NoDup (triple <$> storedSignals d);
  inv_capacity : size_of (storedSignals d) ≤ MAX_SIGNALS;
  inv_synced : persisted (preferences d) = storedSignals d
}.

(** The signal [handleReceivedSignal] builds from a reading. *)
Definition newSignal_of (rx : Reading) (now : Z) (d : Device) : RFSignal :=
  {| name := "Signal_" +:+ pretty (signalCount d);
     value := rx_value rx;
     bitLength := rx_bitLength rx;
     protocol := rx_protocol rx;
     timestamp := now;
     isFavorite := false |}.

(** The feedback block of [handleReceivedSignal] (lines 167-173). *)
Definition receive_feedback (d : Device) : Device :=
  let d2 := if buzzerEnabled d then emit PlayReceiveSound d else d in
  if ledEnabled d2 then emit (FlashLED 100 3) d2 else d2.

(** A captured signal numbered [i], taken at time [t]. *)
Definition sample (i : nat) (t : Z) (fav : bool) : RFSignal :=
  {| name := "Signal_" +:+ pretty i;
     value := Z.of_nat (S i);
     bitLength := 24;
     protocol := 1;
     timestamp := t;
     isFavorite := fav |}.

(** A device holding the vector [l], saved, with both feedback flags on. *)
Definition device_with (l : list RFSignal) : Device :=
  saveStoredSignals
    {| storedSignals := l;
       signalCount := size_of l;
       lastSignalTime := 0;
       sniffingEnabled := true;
       buzzerEnabled := true;
       ledEnabled := true;
       preferences := ∅;
       outputs := [] |}.

(** [n] non-favorites captured at times 1, 2, ..., [n]. *)
Definition fresh_archive (n : nat) : list RFSignal :=
  (λ i, sample i (Z.of_nat (S i)) false) <$> seq 0 n.

(** 999 favorites captured at times 2, ..., 1000 and a last favorite
    captured at time 1 (after the clock started again). *)
Definition full_of_favorites : list RFSignal :=
  ((λ i, sample i (Z.of_nat (S (S i))) true) <$> seq 0 999)
  ++ [sample 999 1 true].

(** A reading that repeats signal 0 of the examples, and one that is new. *)
Definition repeated_reading : Reading := mkReading 1 24 1.
Definition new_reading : Reading := mkReading 5000 24 1.


Definition flag_key (k : string) : Prop :=
  k = "sniffingEnabled" ∨ k = "buzzerEnabled" ∨ k = "ledEnabled".

(** The stored [nextId] is not negative and the name counter is at most
    [n]. *)
Definition counter_within (n : Z) (d : Device) : Prop :=
  0 ≤ getInt "nextId" 0 (preferences d) ∧ signalCount d ≤ n.

(** The names in the vector are automatic names with numbers below the
    stored [nextId], which the counter has not fallen behind, and they are
    pairwise distinct. *)
Definition names_ok (d : Device) : Prop :=
  Forall (auto_named (getInt "nextId" 0 (preferences d))) (storedSignals d)
  ∧ getInt "nextId" 0 (preferences d) ≤ signalCount d
  ∧ NoDup (name <$> storedSignals d).

(** * Verification *)

(** ** The definitions at work *)

Example sigKey_format : sigKey 12 "name" = "sig12_name".
Proof. reflexivity. Qed.

Example signalsToRemove_value : signalsToRemove = 200.
Proof. reflexivity. Qed.

Example cutoffTime_after_ten_days :
  cutoffTime 864000000 7 = 259200000.
Proof. reflexivity. Qed.

Example cleanup_less_favorite_last :
  cleanup_less (sample 0 9 false) (sample 1 1 true) = true
  ∧ cleanup_less (sample 1 1 true) (sample 0 9 false) = false.
Proof. split; reflexivity. Qed.

Example erase_oldest_skips_favorites :
  erase_oldest [sample 0 1 false; sample 1 2 true; sample 2 3 false] 199
  = ([sample 1 2 true; sample 2 3 false], 200).
Proof. reflexivity. Qed.

(** ** Insertion sort meets the contract of [std::sort] *)

Section InsertionSort.
Context {A : Type} (comp : A → A → bool).

Lemma insert_sorted_perm (x : A) (l : list A) :
  insert_sorted comp x l ≡ₚ x :: l.
Proof.
  induction l as [|y t IH]; simpl; [done|].
  destruct (comp x y); [done|].
  rewrite IH. apply Permutation_swap.
Qed.

Lemma insertion_sort_perm (l : list A) : insertion_sort comp l ≡ₚ l.
Proof.
  induction l as [|x t IH]; simpl; [done|].
  by rewrite insert_sorted_perm, IH.
Qed.

Hypothesis comp_swo : StrictWeakOrder comp.

Lemma insert_sorted_sorted (x : A) (l : list A) :
  StronglySorted (λ a b, comp b a = false) l →
  StronglySorted (λ a b, comp b a = false) (insert_sorted comp x l).
Proof.
  destruct comp_swo as (Hirr & Htrans & _).
  induction l as [|y t IH]; simpl; intros Hs.
  - repeat constructor.
  - apply StronglySorted_cons in Hs as [Hy Ht].
    destruct (comp x y) eqn:Hxy.
    + apply StronglySorted_cons; split.
      * constructor.
        { destruct (comp y x) eqn:Hyx; [|done].
          pose proof (Htrans x y x Hxy Hyx) as Hxx. by rewrite Hirr in Hxx. }
        eapply Forall_impl; [exact Hy|]. intros z Hzy; simpl in Hzy.
        destruct (comp z x) eqn:Hzx; [|done].
        pose proof (Htrans z x y Hzx Hxy) as Hzy'. by rewrite Hzy in Hzy'.
      * by apply StronglySorted_cons.
    + apply StronglySorted_cons; split; [|by apply IH].
      rewrite insert_sorted_perm. by constructor.
Qed.

Lemma insertion_sort_sorted (l : list A) :
  StronglySorted (λ a b, comp b a = false) (insertion_sort comp l).
Proof.
  induction l as [|x t IH]; simpl; [constructor|].
  by apply insert_sorted_sorted.
Qed.
End InsertionSort.

#[export] Instance insertion_StdSort : StdSort :=
  {| std_sort := @insertion_sort;
     std_sort_perm := λ A comp l _, insertion_sort_perm comp l;
     std_sort_sorted := λ A comp l Hswo, insertion_sort_sorted comp Hswo l |}.

(** The first capture on a new device, run with that sort. *)
Example first_capture :
  let r := handleReceivedSignal new_reading 10 20 (setup ∅) in
  snd r = Some (Stored 1)
  ∧ name <$> storedSignals (fst r) = ["Signal_0"]
  ∧ getInt "signalCount" 0 (preferences (fst r)) = 1
  ∧ getULong "sig0_val" 0 (preferences (fst r)) = 5000.
Proof. vm_compute. done. Qed.

(** ** The cleanup comparator *)

Lemma cleanup_less_swo : StrictWeakOrder cleanup_less.
Proof.
  unfold StrictWeakOrder, cleanup_less. split; [|split].
  - intros [? ? ? ? t []]; simpl; lia.
  - intros [? ? ? ? ta []] [? ? ? ? tb []] [? ? ? ? tc []]; simpl; lia.
  - intros [? ? ? ? ta []] [? ? ? ? tb []] [? ? ? ? tc []]; simpl; lia.
Qed.

Lemma filter_none {A : Type} (P : A → Prop) `{!∀ x, Decision (P x)}
    (l : list A) :
  Forall (λ x, ¬ P x) l → filter P l = [].
Proof. induction 1; [done|]. by rewrite filter_cons_False. Qed.

Lemma filter_all {A : Type} (P : A → Prop) `{!∀ x, Decision (P x)}
    (l : list A) :
  Forall P l → filter P l = l.
Proof. induction 1; [done|]. rewrite filter_cons_True by done. congruence. Qed.

(** A vector sorted by [cleanup_less] is its non-favorites, oldest first,
    followed by its favorites. *)
Lemma cleanup_sorted_split (l : list RFSignal) :
  StronglySorted (λ a b, cleanup_less b a = false) l →
  l = filter (λ s, isFavorite s = false) l ++ filter (λ s, isFavorite s = true) l
  ∧ StronglySorted by_age (filter (λ s, isFavorite s = false) l)
  ∧ StronglySorted by_age (filter (λ s, isFavorite s = true) l).
Proof.
  induction 1 as [|a l Hs IH Ha]; [by repeat constructor|].
  destruct IH as (Hl & Hnf & Hfv).
  assert (Hage : Forall (by_age a)
            (filter (λ s, isFavorite s = isFavorite a) l)).
  { apply Forall_forall. intros b [Hb Hin]%list_elem_of_filter.
    rewrite Forall_forall in Ha. specialize (Ha b Hin).
    unfold cleanup_less, by_age in *.
    destruct (isFavorite a), (isFavorite b); simpl in *; try done; lia. }
  destruct (isFavorite a) eqn:Hfa.
  - rewrite filter_cons_False, filter_cons_True by (by rewrite ?Hfa).
    assert (filter (λ s, isFavorite s = false) l = []) as Hnil.
    { apply filter_none, Forall_forall. intros b Hin Hb.
      rewrite Forall_forall in Ha. specialize (Ha b Hin).
      unfold cleanup_less in Ha. by rewrite Hfa, Hb in Ha. }
    rewrite Hnil in *. simpl in *. split_and!.
    + by rewrite <-Hl.
    + constructor.
    + apply StronglySorted_cons. split; [by apply Hage|done].
  - rewrite filter_cons_True, filter_cons_False by (by rewrite ?Hfa).
    simpl. split_and!.
    + by rewrite <-Hl.
    + apply StronglySorted_cons. split; [by apply Hage|done].
    + done.
Qed.

(** ** The erase loop of the cleanup *)

Lemma erase_oldest_favorites (fv : list RFSignal) (c : Z) :
  Forall (λ s, isFavorite s = true) fv → erase_oldest fv c = (fv, c).
Proof.
  induction 1 as [|s fv Hs _ IH]; simpl; [done|].
  rewrite Hs, IH; simpl. by destruct (c <? signalsToRemove).
Qed.

Lemma erase_oldest_split (nf fv : list RFSignal) (c : Z) :
  Forall (λ s, isFavorite s = false) nf →
  Forall (λ s, isFavorite s = true) fv →
  c ≤ signalsToRemove →
  let k := Nat.min (Z.to_nat (signalsToRemove - c)) (length nf) in
  erase_oldest (nf ++ fv) c = (drop k nf ++ fv, c + Z.of_nat k).
Proof.
  intros Hnf Hfv. revert c.
  induction Hnf as [|s nf Hs _ IH]; intros c Hc; simpl.
  - rewrite Nat.min_0_r, Z.add_0_r. by apply erase_oldest_favorites.
  - destruct (c <? signalsToRemove) eqn:Hlt.
    + apply Z.ltb_lt in Hlt. rewrite Hs; simpl.
      rewrite IH by lia.
      replace (Z.to_nat (signalsToRemove - c))
        with (S (Z.to_nat (signalsToRemove - (c + 1)))) by lia.
      simpl. f_equal. lia.
    + apply Z.ltb_ge in Hlt.
      replace (Z.to_nat (signalsToRemove - c)) with 0%nat by lia.
      simpl. by rewrite Z.add_0_r.
Qed.

Section Cleanup.
Context `{StdSort}.

(** What [performAutoCleanup] leaves of a vector [l]: the sorted vector is
    the non-favorites [nf] by age followed by the favorites [fv], and the
    loop erases the first [quota l] of [nf]. *)
Lemma cleanup_signals_shape (l : list RFSignal) :
  ∃ nf fv,
    std_sort cleanup_less l = nf ++ fv
    ∧ nf ≡ₚ nonFavorites l ∧ fv ≡ₚ favorites l
    ∧ Forall (λ s, isFavorite s = false) nf
    ∧ Forall (λ s, isFavorite s = true) fv
    ∧ StronglySorted by_age nf ∧ StronglySorted by_age fv
    ∧ cleanup_signals l = (drop (quota l) nf ++ fv, Z.of_nat (quota l)).
Proof.
  pose proof (std_sort_perm _ cleanup_less l cleanup_less_swo) as Hperm.
  pose proof (std_sort_sorted _ cleanup_less l cleanup_less_swo) as Hsorted.
  apply cleanup_sorted_split in Hsorted as (Hsplit & Hnf & Hfv).
  set (sorted := std_sort cleanup_less l) in *.
  exists (nonFavorites sorted), (favorites sorted).
  assert (nonFavorites sorted ≡ₚ nonFavorites l) as Hpnf
    by (unfold nonFavorites; by rewrite Hperm).
  assert (Forall (λ s, isFavorite s = false) (nonFavorites sorted)) as Hallnf.
  { apply Forall_forall. by intros s [? _]%list_elem_of_filter. }
  assert (Forall (λ s, isFavorite s = true) (favorites sorted)) as Hallfv.
  { apply Forall_forall. by intros s [? _]%list_elem_of_filter. }
  split_and!; try done.
  - unfold favorites. by rewrite Hperm.
  - unfold cleanup_signals. fold sorted. rewrite Hsplit at 1.
    fold (nonFavorites sorted) (favorites sorted).
    rewrite erase_oldest_split by (done || (vm_compute; discriminate)).
    rewrite Z.sub_0_r, Z.add_0_l. unfold quota.
    by rewrite (Permutation_length Hpnf).
Qed.

Lemma cleanup_signals_count (l : list RFSignal) :
  snd (cleanup_signals l) = Z.of_nat (quota l).
Proof.
  destruct (cleanup_signals_shape l) as (nf & fv & _ & _ & _ & _ & _ & _ & _ & ->).
  done.
Qed.

(** The cleanup erases [quota l] signals and keeps the rest. *)
Lemma cleanup_signals_removed (l : list RFSignal) :
  ∃ removed,
    l ≡ₚ removed ++ fst (cleanup_signals l)
    ∧ length removed = quota l
    ∧ Forall (λ s, isFavorite s = false) removed
    ∧ ∀ r s, r ∈ removed → s ∈ fst (cleanup_signals l) →
        isFavorite s = false → timestamp r ≤ timestamp s.
Proof.
  destruct (cleanup_signals_shape l)
    as (nf & fv & Hsort & Hpnf & Hpfv & Hnf & Hfv & Hsnf & _ & ->).
  simpl. exists (take (quota l) nf). split_and!.
  - rewrite (assoc_L (++)), take_drop, <-Hsort.
    symmetry. apply std_sort_perm, cleanup_less_swo.
  - rewrite length_take. unfold quota.
    rewrite <-(Permutation_length Hpnf). lia.
  - by apply Forall_take.
  - intros r s Hr [Hs|Hs]%elem_of_app Hfav.
    + rewrite <-(take_drop (quota l) nf) in Hsnf.
      by eapply (StronglySorted_app_1_elem_of by_age).
    + rewrite Forall_forall in Hfv. specialize (Hfv s Hs). congruence.
Qed.

Lemma cleanup_signals_length (l : list RFSignal) :
  (length (fst (cleanup_signals l)) + quota l = length l)%nat.
Proof.
  destruct (cleanup_signals_removed l) as (removed & Hperm & Hlen & _).
  rewrite (Permutation_length Hperm), length_app. lia.
Qed.

Lemma cleanup_signals_nonFavorites (l : list RFSignal) :
  (length (nonFavorites (fst (cleanup_signals l))) + quota l
   = length (nonFavorites l))%nat.
Proof.
  destruct (cleanup_signals_shape l)
    as (nf & fv & _ & Hpnf & _ & Hnf & Hfv & _ & _ & ->).
  simpl. unfold nonFavorites at 1. rewrite filter_app.
  rewrite (filter_all _ (drop _ nf)) by (by apply Forall_drop).
  rewrite (filter_none _ fv).
  2:{ eapply Forall_impl; [exact Hfv|]. simpl. congruence. }
  rewrite app_nil_r, length_drop. unfold quota.
  rewrite <-(Permutation_length Hpnf). lia.
Qed.

Lemma cleanup_signals_favorites (l : list RFSignal) :
  favorites (fst (cleanup_signals l)) ≡ₚ favorites l.
Proof.
  destruct (cleanup_signals_shape l)
    as (nf & fv & _ & _ & Hpfv & Hnf & Hfv & _ & _ & ->).
  simpl. unfold favorites at 1. rewrite filter_app.
  rewrite (filter_all _ fv) by done.
  rewrite (filter_none _ (drop _ nf)); [done|].
  apply Forall_drop. eapply Forall_impl; [exact Hnf|]. simpl. congruence.
Qed.

End Cleanup.

(** ** The keys of the store are pairwise distinct *)

Lemma pretty_N_char_digit (x : N) : is_digit (pretty_N_char x) = true.
Proof. unfold pretty_N_char. by repeat case_match. Qed.

Lemma pretty_N_go_digits (x : N) (s : string) :
  digits s = true → digits (pretty_N_go x s) = true.
Proof.
  revert s. induction (N.lt_wf_0 x) as [x _ IH]; intros s Hs.
  destruct (decide (x = 0%N)) as [->|Hx].
  - by rewrite pretty_N_go_0.
  - rewrite pretty_N_go_step by lia. apply IH.
    + apply N.div_lt; lia.
    + simpl. by rewrite pretty_N_char_digit.
Qed.

Lemma pretty_nat_digits (n : nat) : digits (pretty n) = true.
Proof.
  unfold pretty, pretty_nat, pretty, pretty_N.
  case_decide; [done|]. by apply pretty_N_go_digits.
Qed.

(** Two strings of digits followed by an underscore and a suffix agree only
    if the digits and the suffixes agree. *)
Lemma digits_sep_inj (s t f f' : string) :
  digits s = true → digits t = true →
  s +:+ "_" +:+ f = t +:+ "_" +:+ f' → s = t ∧ f = f'.
Proof.
  revert t. induction s as [|c s IH]; intros [|c' t]; simpl;
    intros Hs Ht Heq.
  - by simplify_eq.
  - by simplify_eq.
  - by simplify_eq.
  - apply andb_prop in Hs as [_ Hs]. apply andb_prop in Ht as [_ Ht].
    simplify_eq. destruct (IH t Hs Ht) as [-> ->]; done.
Qed.

Lemma sigKey_inj (i j : nat) (f f' : string) :
  sigKey i f = sigKey j f' → i = j ∧ f = f'.
Proof.
  unfold sigKey; simpl. intros Heq. simplify_eq.
  apply digits_sep_inj in Heq as [Hp ->]; auto using pretty_nat_digits.
  split; [|done]. by apply (inj pretty).
Qed.

(** No entry key is one of the other keys the sketch uses. *)
Lemma sigKey_not_meta (i : nat) (f : string) : ¬ meta_key (sigKey i f).
Proof.
  unfold meta_key, sigKey; simpl.
  intros [Heq|[Heq|[Heq|[Heq|Heq]]]]; simplify_eq.
  pose proof (pretty_nat_digits i) as Hd.
  destruct (pretty i) as [|c s]; simpl in *; simplify_eq.
  apply andb_prop in Hd as [Hc _].
  cbv [String.append] in Heq. by simplify_eq.
Qed.

(** ** Reading back what [saveStoredSignals] wrote *)

Lemma save_entry_lookup_other (i : nat) (s : RFSignal)
    (p : gmap string PrefValue) (k : string) :
  (∀ f, k ≠ sigKey i f) → save_entry i s p !! k = p !! k.
Proof.
  intros Hk. unfold save_entry, putBool, putULong, putUInt, putString.
  by rewrite !lookup_insert_ne.
Qed.

Lemma save_entries_lookup_other (l : list RFSignal) (i : nat)
    (p : gmap string PrefValue) (k : string) :
  (∀ j f, (i ≤ j)%nat → k ≠ sigKey j f) → save_entries i l p !! k = p !! k.
Proof.
  revert i p. induction l as [|s l IH]; intros i p Hk; simpl; [done|].
  rewrite IH by (intros; apply Hk; lia).
  apply save_entry_lookup_other. intros f. by apply Hk.
Qed.

Lemma load_entry_ext (i : nat) (p q : gmap string PrefValue) :
  (∀ f, p !! sigKey i f = q !! sigKey i f) → load_entry i p = load_entry i q.
Proof.
  intros Hpq. unfold load_entry, getString, getULong, getUInt, getBool.
  by rewrite !Hpq.
Qed.

Lemma load_entry_save_entry (i : nat) (s : RFSignal)
    (p : gmap string PrefValue) :
  load_entry i (save_entry i s p) = s.
Proof.
  assert (∀ f f', f ≠ f' → sigKey i f ≠ sigKey i f') as Hne.
  { intros f f' Hf Heq. by apply sigKey_inj in Heq as [_ ?]. }
  destruct s. unfold load_entry, save_entry; simpl.
  unfold getString, getULong, getUInt, getBool,
    putBool, putULong, putUInt, putString.
  repeat (rewrite lookup_insert_eq
          || rewrite lookup_insert_ne by (by apply Hne)).
  done.
Qed.

Lemma load_entry_save_entries (l : list RFSignal) (i j : nat)
    (p : gmap string PrefValue) (s : RFSignal) :
  l !! j = Some s → load_entry (i + j) (save_entries i l p) = s.
Proof.
  revert i j p. induction l as [|s' l IH]; intros i j p Hj; [done|].
  destruct j as [|j]; simpl in *.
  - simplify_eq. rewrite Nat.add_0_r.
    rewrite (load_entry_ext _ _ (save_entry i s p)).
    + apply load_entry_save_entry.
    + intros f. apply save_entries_lookup_other.
      intros j f' Hle Heq. apply sigKey_inj in Heq as [? _]. lia.
  - replace (i + S j)%nat with (S i + j)%nat by lia. by apply IH.
Qed.

Lemma load_entries_S (n i : nat) (p : gmap string PrefValue)
    (acc : list RFSignal) :
  load_entries (S n) i p acc
  = load_entries n (S i) p
      (if value (load_entry i p) =? 0 then acc else acc ++ [load_entry i p]).
Proof. done. Qed.

Lemma load_entries_all (l : list RFSignal) (i : nat)
    (p : gmap string PrefValue) (acc : list RFSignal) :
  (∀ j s, l !! j = Some s → load_entry (i + j) p = s) →
  Forall (λ s, value s ≠ 0) l →
  load_entries (length l) i p acc = acc ++ l.
Proof.
  revert i acc. induction l as [|s l IH]; intros i acc Hget Hnz.
  - simpl. by rewrite app_nil_r.
  - apply Forall_cons in Hnz as [Hs Hnz].
    pose proof (Hget 0%nat s eq_refl) as H0. rewrite Nat.add_0_r in H0.
    cbn [length]. rewrite load_entries_S, H0.
    apply Z.eqb_neq in Hs. rewrite Hs.
    rewrite IH; [by rewrite <-(assoc_L (++))| |done].
    intros j s' Hj. replace (S i + j)%nat with (i + S j)%nat by lia.
    by apply Hget.
Qed.

(** Loading never yields more entries than the stored count, and never an
    entry of value zero. *)
Lemma load_entries_length (n i : nat) (p : gmap string PrefValue)
    (acc : list RFSignal) :
  (length (load_entries n i p acc) ≤ length acc + n)%nat.
Proof.
  revert i acc. induction n as [|n IH]; intros i acc; [simpl; lia|].
  rewrite load_entries_S.
  etrans; [apply IH|]. case_match; rewrite ?length_app; simpl; lia.
Qed.

Lemma load_entries_nonzero (n i : nat) (p : gmap string PrefValue)
    (acc : list RFSignal) :
  Forall (λ s, value s ≠ 0) acc →
  Forall (λ s, value s ≠ 0) (load_entries n i p acc).
Proof.
  revert i acc. induction n as [|n IH]; intros i acc Hacc; [done|].
  rewrite load_entries_S.
  apply IH. destruct (value (load_entry i p) =? 0) eqn:Hv; [done|].
  apply Forall_app; split; [done|].
  apply Forall_singleton. by apply Z.eqb_neq.
Qed.

Lemma setup_storedSignals (p : gmap string PrefValue) :
  storedSignals (setup p) = persisted p.
Proof. done. Qed.

Lemma saveStoredSignals_count (d : Device) :
  getInt "signalCount" 0 (preferences (saveStoredSignals d))
  = size_of (storedSignals d).
Proof.
  unfold saveStoredSignals, getInt; simpl.
  rewrite save_entries_lookup_other.
  - unfold putInt. by rewrite lookup_insert_ne, lookup_insert_eq.
  - intros j f _ Heq. eapply sigKey_not_meta. rewrite <-Heq. by left.
Qed.

(** Round trip of the snapshot: what is saved is what a boot loads. *)
Lemma persisted_saveStoredSignals (d : Device) :
  Forall (λ s, value s ≠ 0) (storedSignals d) →
  persisted (preferences (saveStoredSignals d)) = storedSignals d.
Proof.
  intros Hnz. unfold persisted. rewrite saveStoredSignals_count.
  unfold size_of. rewrite Nat2Z.id.
  rewrite load_entries_all; [done| |done].
  intros j s Hj. unfold saveStoredSignals; simpl.
  by apply (load_entry_save_entries _ 0).
Qed.

(** Keys other than ["signalCount"] and the entry keys do not matter to what
    a boot loads. *)
Lemma load_entries_ext (n i : nat) (p q : gmap string PrefValue)
    (acc : list RFSignal) :
  (∀ j f, p !! sigKey j f = q !! sigKey j f) →
  load_entries n i p acc = load_entries n i q acc.
Proof.
  intros Hpq. revert i acc. induction n as [|n IH]; intros i acc; [done|].
  rewrite !load_entries_S, (load_entry_ext i p q) by done. apply IH.
Qed.

Lemma persisted_insert_flag (k : string) (v : PrefValue)
    (p : gmap string PrefValue) :
  k ≠ "signalCount" → (∀ j f, k ≠ sigKey j f) →
  persisted (<[k := v]> p) = persisted p.
Proof.
  intros Hk Hkeys. unfold persisted, getInt.
  rewrite lookup_insert_ne by done.
  apply load_entries_ext. intros j f. by rewrite lookup_insert_ne.
Qed.

Lemma persisted_empty : persisted ∅ = [].
Proof. done. Qed.

(** ** The duplicate check *)

Lemma isDuplicate_true (newSignal : RFSignal) (stored : list RFSignal) :
  isDuplicate newSignal stored = true
  ↔ ∃ s, s ∈ stored ∧ triple s = triple newSignal.
Proof.
  induction stored as [|s l IH]; simpl.
  - split; [done|]. by intros (s & Hs%elem_of_nil & _).
  - destruct ((value s =? value newSignal)
              && (bitLength s =? bitLength newSignal)
              && (protocol s =? protocol newSignal)) eqn:Heq.
    + split; [intros _|done]. exists s. split; [by left|].
      apply andb_prop in Heq as [[Hv%Z.eqb_eq Hb%Z.eqb_eq]%andb_prop Hp%Z.eqb_eq].
      unfold triple. congruence.
    + rewrite IH. split.
      * intros (s' & Hin & Ht). exists s'. split; [by right|done].
      * intros (s' & [->|Hin]%elem_of_cons & Ht); [|by eauto].
        unfold triple in Ht. injection Ht as Hv Hb Hp.
        by rewrite Hv, Hb, Hp, !Z.eqb_refl in Heq.
Qed.

Lemma isDuplicate_false (newSignal : RFSignal) (stored : list RFSignal) :
  isDuplicate newSignal stored = false
  ↔ triple newSignal ∉ triple <$> stored.
Proof.
  rewrite <-not_true_iff_false, isDuplicate_true, list_elem_of_fmap.
  split.
  - intros Hno (s & Ht & Hs). apply Hno. by exists s.
  - intros Hno (s & Hs & Ht). apply Hno. by exists s.
Qed.

(** ** Sub-vectors: what erasing leaves *)

Lemma purge_old_sublist (cutoff : Z) (l : list RFSignal) :
  purge_old cutoff l `sublist_of` l.
Proof.
  induction l as [|s l IH]; simpl; [done|].
  case_match; by constructor.
Qed.

Lemma NoDup_submseteq_inv {A : Type} (l k : list A) :
  l ⊆+ k → NoDup k → NoDup l.
Proof.
  intros [k' Hk]%submseteq_Permutation. rewrite Hk.
  by intros (? & _ & _)%NoDup_app.
Qed.

Lemma fmap_alter_same {A B : Type} (g : A → B) (f : A → A) (i : nat)
    (l : list A) :
  (∀ x, g (f x) = g x) → g <$> alter f i l = g <$> l.
Proof.
  intros Hf. revert i.
  induction l as [|x l IH]; intros [|i]; csimpl; rewrite ?Hf, ?IH; done.
Qed.

Section Invariant.
Context `{StdSort}.

Lemma cleanup_signals_submseteq (l : list RFSignal) :
  fst (cleanup_signals l) ⊆+ l.
Proof.
  destruct (cleanup_signals_removed l) as (removed & Hperm & _).
  rewrite Hperm at 2. apply submseteq_inserts_l. done.
Qed.

Lemma Inv_saved (l : list RFSignal) (d : Device) :
  Forall (λ s, value s ≠ 0) l →
  NoDup (triple <$> l) →
  size_of l ≤ MAX_SIGNALS →
  Inv (saveStoredSignals (set_storedSignals l d)).
Proof.
  intros Hnz Hnd Hcap. split; try done.
  exact (persisted_saveStoredSignals (set_storedSignals l d) Hnz).
Qed.

Lemma Inv_sub (l : list RFSignal) (d d' : Device) :
  Inv d → l ⊆+ storedSignals d →
  Inv (saveStoredSignals (set_storedSignals l d')).
Proof.
  intros [Hnz Hnd Hcap _] Hsub. apply Inv_saved.
  - apply Forall_forall. intros s Hs. rewrite Forall_forall in Hnz.
    apply Hnz. by eapply elem_of_submseteq.
  - eapply NoDup_submseteq_inv; [|exact Hnd]. by apply fmap_submseteq.
  - apply submseteq_length in Hsub. unfold size_of in *. lia.
Qed.

Lemma Inv_frame (d d' : Device) :
  storedSignals d' = storedSignals d →
  persisted (preferences d') = persisted (preferences d) →
  Inv d → Inv d'.
Proof.
  intros Hs Hp [Hnz Hnd Hcap Hsync]. split; rewrite ?Hs, ?Hp; done.
Qed.

Lemma Inv_alter (f : RFSignal → RFSignal) (i : nat) (d : Device) :
  (∀ s, triple (f s) = triple s) →
  Inv d →
  Inv (saveStoredSignals
         (set_storedSignals (alter f i (storedSignals d)) d)).
Proof.
  intros Hf [Hnz Hnd Hcap _]. apply Inv_saved.
  - apply Forall_alter; [done|]. intros s _ Hs.
    pose proof (Hf s) as Ht. unfold triple in Ht. simplify_eq. congruence.
  - simpl. by rewrite fmap_alter_same.
  - unfold size_of in *. by rewrite length_alter.
Qed.

Lemma performAutoCleanup_Inv (d : Device) : Inv d → Inv (performAutoCleanup d).
Proof.
  intros Hd. eapply Inv_sub; [exact Hd|]. apply cleanup_signals_submseteq.
Qed.

(** The three ways out of the storage step. *)
Lemma store_signal_cases (newSignal : RFSignal) (d : Device) :
  let d1 := if AUTO_CLEANUP_THRESHOLD <=? size_of (storedSignals d)
            then performAutoCleanup d else d in
  (isDuplicate newSignal (storedSignals d) = true
   ∧ store_signal newSignal d = (d, Duplicate))
  ∨ (isDuplicate newSignal (storedSignals d) = false
     ∧ MAX_SIGNALS ≤ size_of (storedSignals d1)
     ∧ store_signal newSignal d = (d1, StorageFull))
  ∨ (isDuplicate newSignal (storedSignals d) = false
     ∧ size_of (storedSignals d1) < MAX_SIGNALS
     ∧ store_signal newSignal d
       = (saveStoredSignals
            (set_storedSignals (storedSignals d1 ++ [newSignal]) d1),
          Stored (size_of (storedSignals d1) + 1))).
Proof.
  intros d1. unfold store_signal. fold d1.
  destruct (isDuplicate newSignal (storedSignals d)); simpl; [by left|].
  right. destruct (size_of (storedSignals d1) <? MAX_SIGNALS) eqn:Hlt.
  - right. apply Z.ltb_lt in Hlt. split_and!; try done.
    f_equal. f_equal. unfold size_of. simpl. rewrite length_app. simpl. lia.
  - left. apply Z.ltb_ge in Hlt. done.
Qed.

Lemma store_signal_Inv (newSignal : RFSignal) (d : Device) :
  value newSignal ≠ 0 → Inv d → Inv (fst (store_signal newSignal d)).
Proof.
  intros Hv Hd.
  assert (Inv (if AUTO_CLEANUP_THRESHOLD <=? size_of (storedSignals d)
               then performAutoCleanup d else d)) as Hd1.
  { case_match; [by apply performAutoCleanup_Inv|done]. }
  assert (isDuplicate newSignal (storedSignals d) = false →
          triple newSignal ∉ triple <$> storedSignals
            (if AUTO_CLEANUP_THRESHOLD <=? size_of (storedSignals d)
             then performAutoCleanup d else d)) as Hfresh.
  { intros Hdup%isDuplicate_false. case_match; [|done].
    intros Hin. apply Hdup. simpl in Hin.
    eapply elem_of_submseteq; [exact Hin|].
    apply fmap_submseteq, cleanup_signals_submseteq. }
  destruct (store_signal_cases newSignal d)
    as [[_ ->]|[(_ & _ & ->)|(Hdup & Hlt & ->)]]; simpl; try done.
  destruct Hd1 as [Hnz Hnd Hcap _]. apply Inv_saved.
  - apply Forall_app. split; [done|]. by apply Forall_singleton.
  - rewrite fmap_app. apply NoDup_app. split_and!; [done| |].
    + intros t Ht ->%list_elem_of_singleton. by apply Hfresh.
    + apply NoDup_singleton.
  - unfold size_of in *. rewrite length_app. simpl. lia.
Qed.

End Invariant.

(** ** The capture path, step by step *)

Lemma receive_feedback_outputs (d : Device) :
  outputs (receive_feedback d)
  = outputs d
    ++ (if buzzerEnabled d then [PlayReceiveSound] else [])
    ++ (if ledEnabled d then [FlashLED 100 3] else []).
Proof.
  unfold receive_feedback.
  destruct (buzzerEnabled d) eqn:Hb, (ledEnabled d) eqn:Hl; simpl;
    rewrite ?Hl; simpl; rewrite <-?(assoc_L (++)), ?app_nil_r; done.
Qed.

Lemma receive_feedback_frame (d : Device) :
  storedSignals (receive_feedback d) = storedSignals d
  ∧ preferences (receive_feedback d) = preferences d
  ∧ lastSignalTime (receive_feedback d) = lastSignalTime d
  ∧ signalCount (receive_feedback d) = signalCount d.
Proof.
  unfold receive_feedback.
  destruct (buzzerEnabled d) eqn:Hb, (ledEnabled d) eqn:Hl; simpl;
    rewrite ?Hl; done.
Qed.

Lemma transmitSignal_frame (signal : RFSignal) (d : Device) :
  storedSignals (transmitSignal signal d) = storedSignals d
  ∧ preferences (transmitSignal signal d) = preferences d.
Proof.
  unfold transmitSignal. simpl.
  destruct (buzzerEnabled d); simpl; destruct (ledEnabled d); done.
Qed.

Section Capture.
Context `{StdSort}.

Lemma handleReceivedSignal_zero (rx : Reading) (now later : Z) (d : Device) :
  rx_value rx = 0 → handleReceivedSignal rx now later d = (d, None).
Proof. intros Hv. unfold handleReceivedSignal. by rewrite Hv. Qed.

Lemma handleReceivedSignal_nonzero (rx : Reading) (now later : Z)
    (d : Device) :
  rx_value rx ≠ 0 →
  let r := store_signal (newSignal_of rx now d)
             (set_signalCount (int_of (signalCount d + 1)) d) in
  handleReceivedSignal rx now later d
  = (set_lastSignalTime later (receive_feedback (fst r)), Some (snd r)).
Proof.
  intros Hv%Z.eqb_neq r. unfold handleReceivedSignal. rewrite Hv; simpl.
  fold (newSignal_of rx now d). fold r. by destruct r.
Qed.

(** The storage step leaves the flags, the outputs and the last-signal
    time alone. *)
Lemma store_signal_frame (newSignal : RFSignal) (d : Device) :
  let d' := fst (store_signal newSignal d) in
  buzzerEnabled d' = buzzerEnabled d ∧ ledEnabled d' = ledEnabled d
  ∧ sniffingEnabled d' = sniffingEnabled d
  ∧ outputs d' = outputs d ∧ lastSignalTime d' = lastSignalTime d
  ∧ signalCount d' = signalCount d.
Proof.
  destruct (store_signal_cases newSignal d)
    as [[_ ->]|[(_ & _ & ->)|(_ & _ & ->)]]; simpl;
    by destruct (AUTO_CLEANUP_THRESHOLD <=? size_of (storedSignals d)).
Qed.

Lemma handleReceivedSignal_Inv (rx : Reading) (now later : Z) (d : Device) :
  Inv d → Inv (fst (handleReceivedSignal rx now later d)).
Proof.
  intros Hd. destruct (decide (rx_value rx = 0)) as [Hv|Hv].
  - by rewrite handleReceivedSignal_zero.
  - rewrite handleReceivedSignal_nonzero by done. simpl.
    destruct (receive_feedback_frame
      (fst (store_signal (newSignal_of rx now d)
              (set_signalCount (int_of (signalCount d + 1)) d)))) as (Hs & Hp & _).
    eapply Inv_frame; [exact Hs|simpl; by rewrite Hp|].
    apply store_signal_Inv; [done|].
    by eapply Inv_frame; [| |exact Hd].
Qed.

Lemma flag_key_persisted (k : string) (v : PrefValue)
    (p : gmap string PrefValue) :
  k = "sniffingEnabled" ∨ k = "buzzerEnabled" ∨ k = "ledEnabled" →
  persisted (<[k := v]> p) = persisted p.
Proof.
  intros Hk. apply persisted_insert_flag.
  - by destruct Hk as [->|[->| ->]].
  - intros j f ->. apply (sigKey_not_meta j f). unfold meta_key. tauto.
Qed.

Lemma step_Inv (r : Request) (d : Device) : Inv d → Inv (step r d).
Proof.
  intros Hd. destruct r as [rx now later|e|e|e|id|id|id n|id f| | |days now|];
    simpl.
  - unfold loop. destruct rx as [rx|]; [|done].
    destruct (sniffingEnabled d); [|done]. by apply handleReceivedSignal_Inv.
  - destruct e as [v|]; [|done]. simpl.
    eapply Inv_frame; [| |exact Hd]; [done|].
    apply flag_key_persisted. tauto.
  - destruct e as [v|]; [|done]. simpl.
    eapply Inv_frame; [| |exact Hd]; [done|].
    apply flag_key_persisted. tauto.
  - destruct e as [v|]; [|done]. simpl.
    eapply Inv_frame; [| |exact Hd]; [done|].
    apply flag_key_persisted. tauto.
  - unfold api_transmit. destruct id as [id|]; [|done].
    destruct (valid_id id d); [|done].
    destruct (storedSignals d !! Z.to_nat id) as [s|]; [|done]. simpl.
    destruct (transmitSignal_frame s d) as [Hs Hp].
    eapply Inv_frame; [exact Hs|by rewrite Hp|exact Hd].
  - unfold api_delete. destruct id as [id|]; [|done].
    destruct (valid_id id d); [|done]. simpl.
    eapply Inv_sub; [exact Hd|]. apply sublist_submseteq, sublist_delete.
  - unfold api_rename. destruct id as [id|], n as [n|]; try done.
    destruct (valid_id id d); [|done]. simpl. by apply Inv_alter.
  - unfold api_favorite. destruct id as [id|], f as [f|]; try done.
    destruct (valid_id id d); [|done]. simpl. by apply Inv_alter.
  - apply (Inv_saved [] (set_signalCount 0 d)); [done|constructor|done].
  - by apply performAutoCleanup_Inv.
  - eapply Inv_sub; [exact Hd|].
    apply sublist_submseteq, purge_old_sublist.
  - destruct Hd as [Hnz Hnd Hcap Hsync].
    split; rewrite ?setup_storedSignals, ?Hsync; done.
Qed.

Lemma Reachable_Inv (d : Device) : Reachable d → Inv d.
Proof.
  induction 1 as [|r d _ IH]; [|by apply step_Inv].
  split; rewrite ?setup_storedSignals, ?persisted_empty; try done.
  constructor.
Qed.

End Capture.

(** ** Duplicates *)

Section Duplicates.
Context `{StdSort}.

Lemma store_signal_unique (newSignal : RFSignal) (d : Device) :
  NoDup (triple <$> storedSignals d) →
  NoDup (triple <$> storedSignals (fst (store_signal newSignal d))).
Proof.
  intros Hnd.
  set (d1 := if AUTO_CLEANUP_THRESHOLD <=? size_of (storedSignals d)
             then performAutoCleanup d else d).
  assert (storedSignals d1 ⊆+ storedSignals d) as Hsub.
  { unfold d1. case_match; [|done]. apply cleanup_signals_submseteq. }
  assert (NoDup (triple <$> storedSignals d1)) as Hnd1.
  { eapply NoDup_submseteq_inv; [|exact Hnd]. by apply fmap_submseteq. }
  destruct (store_signal_cases newSignal d)
    as [[_ ->]|[(_ & _ & ->)|(Hdup & Hlt & ->)]]; simpl; try done.
  fold d1. rewrite fmap_app. apply NoDup_app. split_and!; [done| |].
  - intros t Ht ->%list_elem_of_singleton.
    apply isDuplicate_false in Hdup. apply Hdup.
    eapply elem_of_submseteq; [exact Ht|]. by apply fmap_submseteq.
  - apply NoDup_singleton.
Qed.

(** C1: a reading whose (value, bitLength, protocol) equals that of a stored
    signal is answered "Duplicate" and leaves the vector and the store as
    they were; every insert keeps the triples of the vector pairwise
    distinct, and they are pairwise distinct in every state the device
    reaches. *)
Theorem duplicate_insert_rejected (d : Device) (rx : Reading)
    (now later : Z) :
  rx_value rx ≠ 0 →
  let r := handleReceivedSignal rx now later d in
  ((∃ s, s ∈ storedSignals d
         ∧ (value s, bitLength s, protocol s)
           = (rx_value rx, rx_bitLength rx, rx_protocol rx)) →
   snd r = Some Duplicate
   ∧ storedSignals (fst r) = storedSignals d
   ∧ preferences (fst r) = preferences d)
  ∧ (NoDup (triple <$> storedSignals d) →
     NoDup (triple <$> storedSignals (fst r)))
  ∧ (Reachable d → NoDup (triple <$> storedSignals d)).
Proof.
  intros Hv r. unfold r. rewrite handleReceivedSignal_nonzero by done.
  simpl. set (new := newSignal_of rx now d).
  set (d0 := set_signalCount (int_of (signalCount d + 1)) d).
  destruct (receive_feedback_frame (fst (store_signal new d0)))
    as (Hs & Hp & _).
  rewrite Hs, Hp. split_and!.
  - intros Hex.
    assert (isDuplicate new (storedSignals d0) = true) as Hdup.
    { apply isDuplicate_true. destruct Hex as (s & Hin & Ht).
      exists s. split; [done|]. exact Ht. }
    destruct (store_signal_cases new d0)
      as [[_ ->]|[(Hno & _)|(Hno & _)]]; [done|congruence..].
  - apply (store_signal_unique new d0).
  - by intros [_ Hnd _ _]%Reachable_Inv.
Qed.

End Duplicates.

Lemma duplicate_insert_rejected_witness :
  snd (handleReceivedSignal repeated_reading 10 20
         (device_with (fresh_archive 3))) = Some Duplicate.
Proof.
  assert (rx_value repeated_reading ≠ 0) as Hv by done.
  destruct (duplicate_insert_rejected (device_with (fresh_archive 3))
              repeated_reading 10 20 Hv) as [Hdup _].
  apply Hdup. exists (sample 0 1 false). split; [|done].
  vm_compute. left.
Defined.

(** ** Feedback and the last-signal time *)

(** A duplicate reading still sounds the buzzer and flashes the LED. *)
Lemma feedback_on_duplicate :
  let d := device_with (fresh_archive 3) in
  let r := handleReceivedSignal repeated_reading 10 20 d in
  snd r = Some Duplicate
  ∧ outputs (fst r) = outputs d ++ [PlayReceiveSound; FlashLED 100 3].
Proof. vm_compute. done. Qed.

Section Readings.
Context `{StdSort}.

(** C5, as the code has it: every non-zero reading triggers the feedback,
    whatever the outcome of the storage step; the tone is played when the
    buzzer flag is set and the LED flashed when the LED flag is set.  A zero
    reading triggers none. *)
Theorem feedback_on_every_reading (d : Device) (rx : Reading)
    (now later : Z) :
  outputs (fst (handleReceivedSignal rx now later d))
  = if rx_value rx =? 0 then outputs d
    else outputs d
         ++ (if buzzerEnabled d then [PlayReceiveSound] else [])
         ++ (if ledEnabled d then [FlashLED 100 3] else []).
Proof.
  destruct (rx_value rx =? 0) eqn:Hv.
  - apply Z.eqb_eq in Hv. by rewrite handleReceivedSignal_zero.
  - apply Z.eqb_neq in Hv. rewrite handleReceivedSignal_nonzero by done.
    simpl. rewrite receive_feedback_outputs.
    destruct (store_signal_frame (newSignal_of rx now d)
                (set_signalCount (int_of (signalCount d + 1)) d))
      as (-> & -> & _ & -> & _).
    done.
Qed.

(** C9, as the code has it: every non-zero reading sets the last-signal
    time to the clock value read at the end of the handler, whatever the
    outcome of the storage step; a zero reading leaves it as it was. *)
Theorem lastSignalTime_on_every_reading (d : Device) (rx : Reading)
    (now later : Z) :
  lastSignalTime (fst (handleReceivedSignal rx now later d))
  = if rx_value rx =? 0 then lastSignalTime d else later.
Proof.
  destruct (rx_value rx =? 0) eqn:Hv.
  - apply Z.eqb_eq in Hv. by rewrite handleReceivedSignal_zero.
  - apply Z.eqb_neq in Hv. by rewrite handleReceivedSignal_nonzero.
Qed.

End Readings.

(** ** A full archive *)

(** With 1000 favorites stored, a new reading is answered "Storage full",
    and the last-signal time is set all the same. *)
Lemma lastSignalTime_on_storage_full :
  let d := device_with full_of_favorites in
  let r := handleReceivedSignal new_reading 5000 6000 d in
  snd r = Some StorageFull
  ∧ lastSignalTime d = 0
  ∧ lastSignalTime (fst r) = 6000.
Proof. vm_compute. done. Qed.

(** The full example device satisfies the invariant of the device. *)
Lemma full_of_favorites_Inv : Inv (device_with full_of_favorites).
Proof.
  apply (Inv_saved full_of_favorites
           (mkDevice [] (size_of full_of_favorites) 0 true true true ∅ [])).
  - apply (bool_decide_eq_true_1 _). vm_compute. done.
  - apply (bool_decide_eq_true_1 _). vm_compute. done.
  - vm_compute. discriminate.
Qed.

(** "Storage full" re-sorts the vector: the favorite captured last, at time
    1, moves from the back to the front. *)
Lemma storage_full_reorders :
  let d := device_with full_of_favorites in
  let r := handleReceivedSignal new_reading 5000 6000 d in
  size_of (storedSignals d) = MAX_SIGNALS
  ∧ snd r = Some StorageFull
  ∧ storedSignals (fst r) ≠ storedSignals d.
Proof.
  intros d r.
  assert (size_of (storedSignals d) = MAX_SIGNALS
          ∧ snd r = Some StorageFull
          ∧ timestamp <$> head (storedSignals (fst r)) = Some 1
          ∧ timestamp <$> head (storedSignals d) = Some 2)
    as (Hsize & Hout & Hr & Hd) by (vm_compute; done).
  split_and!; [done..|].
  intros Heq. rewrite Heq, Hd in Hr. discriminate Hr.
Qed.

Section Capacity.
Context `{StdSort}.

(** When the storage step answers "Storage full" on a vector within
    capacity, the cleanup has run and erased nothing: the vector is full
    of favorites and is left sorted. *)
Lemma store_signal_full (newSignal : RFSignal) (d : Device) :
  size_of (storedSignals d) ≤ MAX_SIGNALS →
  snd (store_signal newSignal d) = StorageFull →
  size_of (storedSignals d) = MAX_SIGNALS
  ∧ Forall (λ s, isFavorite s = true) (storedSignals d)
  ∧ storedSignals (fst (store_signal newSignal d))
    = std_sort cleanup_less (storedSignals d).
Proof.
  intros Hcap Hout.
  destruct (store_signal_cases newSignal d)
    as [[_ Heq]|[(_ & Hfull & Heq)|(_ & _ & Heq)]];
    rewrite Heq in Hout |- *; simpl in *; try done.
  clear Hout Heq.
  destruct (AUTO_CLEANUP_THRESHOLD <=? size_of (storedSignals d)) eqn:Hth;
    [|unfold MAX_SIGNALS, AUTO_CLEANUP_THRESHOLD in *; lia].
  simpl in *.
  pose proof (cleanup_signals_length (storedSignals d)) as Hlen.
  unfold size_of in *.
  assert (quota (storedSignals d) = 0%nat) as Hq by lia.
  assert (nonFavorites (storedSignals d) = []) as Hnone.
  { unfold quota in Hq. apply length_zero_iff_nil.
    change (Z.to_nat signalsToRemove) with 200%nat in Hq. lia. }
  destruct (cleanup_signals_shape (storedSignals d))
    as (nf & fv & Hsort & Hpnf & Hpfv & _ & Hfv & _ & _ & Hclean).
  rewrite Hnone in Hpnf. apply Permutation_nil_r in Hpnf. subst nf.
  rewrite Hclean, Hq, Hsort. simpl. split_and!; [lia| |done].
  apply Forall_forall. intros s Hs.
  destruct (isFavorite s) eqn:Hfav; [done|].
  assert (s ∈ nonFavorites (storedSignals d)) as Hin
    by (by apply list_elem_of_filter).
  rewrite Hnone in Hin. by apply elem_of_nil in Hin.
Qed.

(** C7, as the code has it: in every state the device reaches (through
    inserts, deletes, purges, cleanups, clears and reboots) the vector holds
    at most [MAX_SIGNALS] signals; a reading is answered "Storage full"
    exactly when it is non-zero, not a duplicate, and the vector still holds
    [MAX_SIGNALS] signals or more after the cleanup that the watermark
    triggers; and then the vector is full, holds only favorites, and is left
    as the cleanup sorted it: the same signals, not always in the same
    order. *)
Theorem capacity_never_exceeded (d : Device) :
  Reachable d →
  size_of (storedSignals d) ≤ MAX_SIGNALS
  ∧ ∀ (rx : Reading) (now later : Z),
      let r := handleReceivedSignal rx now later d in
      (snd r = Some StorageFull
       ↔ rx_value rx ≠ 0
         ∧ ((rx_value rx, rx_bitLength rx, rx_protocol rx)
              ∉ triple <$> storedSignals d)
         ∧ MAX_SIGNALS
           ≤ size_of (storedSignals
                        (if AUTO_CLEANUP_THRESHOLD
                              <=? size_of (storedSignals d)
                         then performAutoCleanup d else d)))
      ∧ (snd r = Some StorageFull →
         size_of (storedSignals d) = MAX_SIGNALS
         ∧ Forall (λ s, isFavorite s = true) (storedSignals d)
         ∧ storedSignals (fst r) = std_sort cleanup_less (storedSignals d)
         ∧ storedSignals (fst r) ≡ₚ storedSignals d).
Proof.
  intros [_ _ Hcap _]%Reachable_Inv. split; [done|].
  intros rx now later r. unfold r. split.
  - destruct (decide (rx_value rx = 0)) as [Hv|Hv].
    { rewrite handleReceivedSignal_zero by done. cbn [snd].
      split; [discriminate|]. by intros [? _]. }
    rewrite handleReceivedSignal_nonzero by done. cbn [snd].
    set (new := newSignal_of rx now d).
    set (d0 := set_signalCount (int_of (signalCount d + 1)) d).
    assert ((isDuplicate new (storedSignals d0) = false)
            ↔ ((rx_value rx, rx_bitLength rx, rx_protocol rx)
                 ∉ triple <$> storedSignals d)) as Hfresh
      by apply isDuplicate_false.
    assert (size_of (storedSignals
              (if AUTO_CLEANUP_THRESHOLD <=? size_of (storedSignals d)
               then performAutoCleanup d else d))
            = size_of (storedSignals
                (if AUTO_CLEANUP_THRESHOLD <=? size_of (storedSignals d0)
                 then performAutoCleanup d0 else d0))) as ->.
    { change (storedSignals d0) with (storedSignals d). by case_match. }
    destruct (store_signal_cases new d0)
      as [[Hdup ->]|[(Hdup & Hfull & ->)|(Hdup & Hlt & ->)]]; cbn [snd].
    + split; [discriminate|]. intros (_ & Hno%Hfresh & _). congruence.
    + split; [|done]. intros _. split_and!; [done|by apply Hfresh|done].
    + split; [discriminate|]. intros (_ & _ & Hmax). lia.
  - intros Hout.
    destruct (decide (rx_value rx = 0)) as [Hv|Hv].
    { by rewrite handleReceivedSignal_zero in Hout. }
    rewrite handleReceivedSignal_nonzero in Hout |- * by done.
    simpl in *. injection Hout as Hout.
    set (new := newSignal_of rx now d) in *.
    set (d0 := set_signalCount (int_of (signalCount d + 1)) d) in *.
    destruct (receive_feedback_frame (fst (store_signal new d0)))
      as (-> & _).
    destruct (store_signal_full new d0 Hcap Hout)
      as (Hsize & Hfav & Hsorted).
    split_and!; try done.
    rewrite Hsorted. apply std_sort_perm, cleanup_less_swo.
Qed.

End Capacity.

Lemma capacity_never_exceeded_witness :
  let d := step (LoopPass (Some new_reading) 10 20) (setup ∅) in
  size_of (storedSignals d) ≤ MAX_SIGNALS
  ∧ snd (handleReceivedSignal repeated_reading 30 40 d) ≠ Some StorageFull.
Proof.
  intros d.
  destruct (capacity_never_exceeded d) as [Hsize Hinsert].
  - apply Reachable_step, Reachable_boot.
  - split; [exact Hsize|]. intros Hfull.
    destruct (Hinsert repeated_reading 30 40) as [Hiff _].
    apply Hiff in Hfull as (_ & _ & Hmax).
    vm_compute in Hmax. by apply Hmax.
Defined.

(** ** The snapshot in the store *)

Section Snapshot.
Context `{StdSort}.

(** C8: in every state the device reaches, saving the vector and booting
    from the store gives back the same vector, entry by entry and field by
    field. *)
Theorem save_then_boot_roundtrip (d : Device) :
  Reachable d →
  storedSignals (setup (preferences (saveStoredSignals d))) = storedSignals d
  ∧ storedSignals
      (loadStoredSignals (set_storedSignals [] (saveStoredSignals d)))
    = storedSignals d.
Proof.
  intros [Hnz _ _ _]%Reachable_Inv.
  split; by apply persisted_saveStoredSignals.
Qed.

End Snapshot.

Lemma save_then_boot_roundtrip_witness :
  let d := step (LoopPass (Some new_reading) 10 20) (setup ∅) in
  storedSignals (setup (preferences (saveStoredSignals d))) = storedSignals d.
Proof.
  intros d.
  apply (save_then_boot_roundtrip d). apply Reachable_step, Reachable_boot.
Defined.

(** ** The cleanup: how many, and which *)

(** At the watermark: 950 stored, the cleanup erases 200, the new signal is
    the 751st. *)
Lemma watermark_insert_stores_751 :
  let d := device_with (fresh_archive 950) in
  let r := handleReceivedSignal new_reading 5000 6000 d in
  size_of (storedSignals d) = 950
  ∧ snd r = Some (Stored 751)
  ∧ snd r ≠ Some (Stored 752)
  ∧ size_of (storedSignals (fst r)) = 751.
Proof. vm_compute. done. Qed.

(** Two cleanups in a row of 250 non-favorites: the first erases 200, which
    is the whole quota, and the second erases the 50 that are left. *)
Lemma second_cleanup_erases_again :
  let d := device_with (fresh_archive 250) in
  snd (api_cleanup d) = signalsToRemove
  ∧ snd (api_cleanup (fst (api_cleanup d))) = 50.
Proof. vm_compute. done. Qed.

Section CleanupClaims.
Context `{StdSort}.

(** C2, as the code has it: with exactly 950 non-favorites stored, a new
    non-zero reading runs the cleanup, which erases 200 signals no younger
    than any it keeps and leaves 750; the new signal is appended to those,
    the outcome is "Signal stored (751/1000)" and the final size is 751. *)
Theorem insert_at_watermark (d : Device) (rx : Reading) (now later : Z) :
  rx_value rx ≠ 0 →
  size_of (storedSignals d) = AUTO_CLEANUP_THRESHOLD →
  Forall (λ s, isFavorite s = false) (storedSignals d) →
  (rx_value rx, rx_bitLength rx, rx_protocol rx)
    ∉ triple <$> storedSignals d →
  let kept := storedSignals (performAutoCleanup d) in
  let r := handleReceivedSignal rx now later d in
  (∃ removed,
     storedSignals d ≡ₚ removed ++ kept
     ∧ length removed = 200%nat
     ∧ ∀ x y, x ∈ removed → y ∈ kept → timestamp x ≤ timestamp y)
  ∧ size_of kept = 750
  ∧ storedSignals (fst r) = kept ++ [newSignal_of rx now d]
  ∧ snd r = Some (Stored 751)
  ∧ size_of (storedSignals (fst r)) = 751.
Proof.
  intros Hv Hsize Hnf Hfresh kept r.
  change kept with (fst (cleanup_signals (storedSignals d))) in *.
  clear kept. set (kept := fst (cleanup_signals (storedSignals d))) in *.
  assert (nonFavorites (storedSignals d) = storedSignals d) as Hall
    by (by apply filter_all).
  assert (quota (storedSignals d) = 200%nat) as Hq.
  { unfold quota. rewrite Hall.
    change (Z.to_nat signalsToRemove) with 200%nat.
    unfold size_of, AUTO_CLEANUP_THRESHOLD in Hsize. lia. }
  pose proof (cleanup_signals_length (storedSignals d)) as Hlen.
  rewrite Hq in Hlen.
  assert (size_of kept = 750) as Hkept.
  { unfold kept, size_of, AUTO_CLEANUP_THRESHOLD in *. simpl. lia. }
  assert (∀ y, y ∈ kept → isFavorite y = false) as Hkeptnf.
  { intros y Hy. rewrite Forall_forall in Hnf. apply Hnf.
    eapply elem_of_submseteq; [exact Hy|]. apply cleanup_signals_submseteq. }
  split.
  { destruct (cleanup_signals_removed (storedSignals d))
      as (removed & Hperm & Hlr & _ & Hold).
    exists removed. rewrite Hq in Hlr. split_and!; [done..|].
    intros x y Hx Hy. apply Hold; [done..|]. by apply Hkeptnf. }
  split; [done|].
  unfold r. rewrite handleReceivedSignal_nonzero by done. simpl.
  set (new := newSignal_of rx now d).
  set (d0 := set_signalCount (int_of (signalCount d + 1)) d).
  destruct (receive_feedback_frame (fst (store_signal new d0))) as (-> & _).
  assert (isDuplicate new (storedSignals d0) = false) as Hdup
    by (by apply isDuplicate_false).
  destruct (store_signal_cases new d0)
    as [[Hyes _]|[(_ & Hfull & _)|(_ & _ & ->)]]; [congruence| |].
  - exfalso. simpl in Hfull. rewrite Hsize in Hfull. simpl in Hfull.
    fold kept in Hfull. unfold MAX_SIGNALS in Hfull. lia.
  - simpl. rewrite Hsize. simpl. fold kept.
    rewrite Hkept. split_and!; [done..|].
    unfold size_of in *. rewrite length_app. simpl. lia.
Qed.

(** C3, as the code has it: each cleanup erases 200 signals, or all the
    non-favorites when there are fewer than 200, whatever an earlier cleanup
    erased; so the second of two cleanups in a row erases nothing exactly
    when the vector held at most 200 non-favorites to begin with. *)
Theorem cleanup_twice (d : Device) :
  let n := length (nonFavorites (storedSignals d)) in
  let first := api_cleanup d in
  let second := api_cleanup (fst first) in
  snd first = Z.of_nat (Nat.min 200 n)
  ∧ snd second = Z.of_nat (Nat.min 200 (n - 200))
  ∧ (snd second = 0 ↔ (n ≤ 200)%nat).
Proof.
  intros n first second.
  assert (∀ d', snd (api_cleanup d')
                = Z.of_nat (quota (storedSignals d'))) as Hcount.
  { intros d'. unfold api_cleanup. simpl.
    pose proof (cleanup_signals_length (storedSignals d')).
    unfold size_of. lia. }
  assert (snd first = Z.of_nat (Nat.min 200 n)) as H1.
  { unfold first. by rewrite Hcount. }
  assert (snd second = Z.of_nat (Nat.min 200 (n - 200))) as H2.
  { unfold second. rewrite Hcount. unfold first, n.
    change (storedSignals (fst (api_cleanup d)))
      with (fst (cleanup_signals (storedSignals d))).
    pose proof (cleanup_signals_nonFavorites (storedSignals d)) as Hnf.
    unfold quota in *.
    change (Z.to_nat signalsToRemove) with 200%nat in *. lia. }
  split_and!; [done..|]. rewrite H2. lia.
Qed.

(** C4: when the non-favorites of the vector have pairwise distinct
    timestamps, the cleanup erases 200 non-favorites, or all of them when
    there are fewer than 200; each erased signal is older than every
    non-favorite kept; and the favorites are all kept. *)
Theorem cleanup_erases_oldest (d : Device) :
  NoDup (timestamp <$> nonFavorites (storedSignals d)) →
  let kept := storedSignals (performAutoCleanup d) in
  ∃ removed,
    storedSignals d ≡ₚ removed ++ kept
    ∧ length removed
      = Nat.min 200 (length (nonFavorites (storedSignals d)))
    ∧ Forall (λ s, isFavorite s = false) removed
    ∧ (∀ x y, x ∈ removed → y ∈ kept → isFavorite y = false →
         timestamp x < timestamp y)
    ∧ favorites kept ≡ₚ favorites (storedSignals d).
Proof.
  intros Hnd kept.
  destruct (cleanup_signals_removed (storedSignals d))
    as (removed & Hperm & Hlen & Hnf & Hold).
  exists removed. split_and!; try done.
  - intros x y Hx Hy Hfav.
    pose proof (Hold x y Hx Hy Hfav) as Hle.
    assert (timestamp x ≠ timestamp y); [|lia].
    unfold nonFavorites in Hnd. rewrite Hperm, filter_app, fmap_app in Hnd.
    apply NoDup_app in Hnd as (_ & Hdisj & _).
    intros Heq. apply (Hdisj (timestamp x)).
    + apply list_elem_of_fmap. exists x. split; [done|].
      apply list_elem_of_filter. split; [|done].
      rewrite Forall_forall in Hnf. by apply Hnf.
    + rewrite Heq. apply list_elem_of_fmap. exists y. split; [done|].
      by apply list_elem_of_filter.
  - apply cleanup_signals_favorites.
Qed.

(** Two favorites out of age order are swapped by any conforming sort. *)
Lemma std_sort_swaps (a b : RFSignal) :
  cleanup_less b a = true → std_sort cleanup_less [a; b] = [b; a].
Proof.
  intros Hba.
  pose proof (std_sort_perm _ cleanup_less [a; b] cleanup_less_swo) as Hperm.
  pose proof (std_sort_sorted _ cleanup_less [a; b] cleanup_less_swo) as Hs.
  symmetry in Hperm. apply Permutation_length_2_inv in Hperm as [Heq|Heq];
    [|done].
  rewrite Heq in Hs. apply StronglySorted_cons in Hs as [Hab _].
  apply Forall_cons in Hab as [Hab _]. congruence.
Qed.

(** C10: after a cleanup the vector is the non-favorites that are left, in
    ascending order of timestamp, followed by all the favorites (themselves
    in ascending order of timestamp); and there are vectors in which a
    favorite is at another position afterwards. *)
Theorem cleanup_reorders (d : Device) :
  (∃ nf fv,
     storedSignals (performAutoCleanup d) = nf ++ fv
     ∧ Forall (λ s, isFavorite s = false) nf
     ∧ StronglySorted (λ a b, timestamp a ≤ timestamp b) nf
     ∧ Forall (λ s, isFavorite s = true) fv
     ∧ StronglySorted (λ a b, timestamp a ≤ timestamp b) fv
     ∧ fv ≡ₚ favorites (storedSignals d))
  ∧ (∃ d' s,
       isFavorite s = true
       ∧ storedSignals d' !! 0%nat = Some s
       ∧ storedSignals (performAutoCleanup d') !! 1%nat = Some s).
Proof.
  split.
  - destruct (cleanup_signals_shape (storedSignals d))
      as (nf & fv & _ & _ & Hpfv & Hnf & Hfv & Hsnf & Hsfv & Hclean).
    exists (drop (quota (storedSignals d)) nf), fv. simpl.
    rewrite Hclean. simpl. split_and!; try done.
    + by apply Forall_drop.
    + rewrite <-(take_drop (quota (storedSignals d)) nf) in Hsnf.
      by apply StronglySorted_app_1_r in Hsnf.
  - exists (device_with [sample 0 2 true; sample 1 1 true]),
      (sample 0 2 true).
    split_and!; [done..|]. simpl. unfold cleanup_signals.
    by rewrite std_sort_swaps.
Qed.

End CleanupClaims.

Lemma insert_at_watermark_witness :
  snd (handleReceivedSignal new_reading 5000 6000
         (device_with (fresh_archive 950)))
  = Some (Stored 751).
Proof.
  apply (insert_at_watermark (device_with (fresh_archive 950))
           new_reading 5000 6000).
  - done.
  - vm_compute. done.
  - apply Forall_forall. intros s Hs. unfold device_with in Hs. simpl in Hs.
    apply list_elem_of_fmap in Hs as (i & -> & _). done.
  - apply (bool_decide_eq_true_1 _). vm_compute. done.
Defined.

Lemma cleanup_erases_oldest_witness :
  let d := device_with
             [sample 0 30 false; sample 1 10 true; sample 2 20 false] in
  ∃ removed,
    storedSignals d ≡ₚ removed ++ storedSignals (performAutoCleanup d)
    ∧ length removed = 2%nat.
Proof.
  intros d.
  destruct (cleanup_erases_oldest d) as (removed & Hperm & Hlen & _).
  - apply (bool_decide_eq_true_1 _). vm_compute. done.
  - exists removed. split; [exact Hperm|exact Hlen].
Defined.

(** ** The age purge *)

Lemma purge_old_elem (cutoff : Z) (l : list RFSignal) (s : RFSignal) :
  s ∈ purge_old cutoff l
  ↔ s ∈ l ∧ (isFavorite s = true ∨ cutoff ≤ timestamp s).
Proof.
  induction l as [|x l IH]; simpl.
  - rewrite elem_of_nil. tauto.
  - destruct (negb (isFavorite x) && (timestamp x <? cutoff)) eqn:Hx.
    + apply andb_prop in Hx as [Hf%negb_true_iff Ht%Z.ltb_lt].
      rewrite IH, elem_of_cons. split; [tauto|].
      intros [[->|Hin] Hkeep]; [|tauto].
      destruct Hkeep; [congruence|lia].
    + rewrite !elem_of_cons, IH. split; [|tauto].
      intros [->|Hin]; [|tauto]. split; [by left|].
      apply andb_false_iff in Hx as [Hf%negb_false_iff|Ht%Z.ltb_ge]; tauto.
Qed.

Lemma purge_old_favorites (cutoff : Z) (l : list RFSignal) :
  favorites (purge_old cutoff l) = favorites l.
Proof.
  unfold favorites. induction l as [|x l IH]; simpl; [done|].
  destruct (isFavorite x) eqn:Hf; simpl.
  - rewrite !filter_cons_True by done. by rewrite IH.
  - destruct (timestamp x <? cutoff).
    + rewrite filter_cons_False by congruence. done.
    + rewrite !filter_cons_False by congruence. done.
Qed.

(** While the clock has run for at least the age limit, the cut-off does
    not wrap, and the purge keeps exactly the favorites and the signals
    whose age is within the limit. *)
Lemma cutoffTime_no_wrap (now daysOld : Z) :
  0 ≤ daysOld * 24 * 60 * 60 * 1000 ≤ now → now < ULONG_MODULUS →
  cutoffTime now daysOld = now - daysOld * 24 * 60 * 60 * 1000.
Proof.
  intros Hage Hnow. unfold cutoffTime.
  rewrite (Z.mod_small (daysOld * 24 * 60 * 60 * 1000)) by lia.
  apply Z.mod_small. lia.
Qed.

Lemma purge_exact_without_wrap (now daysOld : Z) (d : Device)
    (s : RFSignal) :
  0 ≤ daysOld * 24 * 60 * 60 * 1000 ≤ now → now < ULONG_MODULUS →
  s ∈ storedSignals (fst (api_cleanup_old (Some daysOld) now d))
  ↔ s ∈ storedSignals d
    ∧ (isFavorite s = true
       ∨ now - timestamp s ≤ daysOld * 24 * 60 * 60 * 1000).
Proof.
  intros Hage Hnow. simpl.
  rewrite purge_old_elem, cutoffTime_no_wrap by done.
  split; intros [Hin [?|?]]; split; try done; try (by left); right; lia.
Qed.

(** C6, at an input where the code departs from it: one second after boot,
    a non-favorite captured half a second ago is erased by the default purge
    of signals older than 7 days, because the cut-off
    [millis() - 604800000] wraps around to a time in the future. *)
Theorem purge_erases_young_signal :
  let d := device_with [sample 0 500 false] in
  let r := api_cleanup_old None 1000 d in
  1000 - 500 ≤ 7 * 24 * 60 * 60 * 1000
  ∧ cutoffTime 1000 7 = 3690168296
  ∧ storedSignals (fst r) = []
  ∧ snd r = 1.
Proof. vm_compute. split_and!; [discriminate|done..]. Qed.

(** * Further properties of the sketch *)

(** ** Requests that name a signal *)

Lemma valid_id_true (id : Z) (d : Device) :
  valid_id id d = true ↔ 0 ≤ id < size_of (storedSignals d).
Proof. unfold valid_id. rewrite andb_true_iff, Z.leb_le, Z.ltb_lt. done. Qed.

Lemma valid_id_lookup (id : Z) (d : Device) :
  0 ≤ id < size_of (storedSignals d) →
  is_Some (storedSignals d !! Z.to_nat id).
Proof. intros Hid. apply lookup_lt_is_Some. unfold size_of in Hid. lia. Qed.

Lemma saveStoredSignals_nextId (d : Device) :
  getInt "nextId" 0 (preferences (saveStoredSignals d)) = signalCount d.
Proof.
  unfold saveStoredSignals, getInt; simpl.
  rewrite save_entries_lookup_other.
  - unfold putInt. by rewrite lookup_insert_eq.
  - intros j f _ Heq. eapply sigKey_not_meta. rewrite <-Heq.
    unfold meta_key. tauto.
Qed.

Lemma saveStoredSignals_entry (d : Device) (i : nat) (s : RFSignal) :
  storedSignals d !! i = Some s →
  load_entry i (preferences (saveStoredSignals d)) = s.
Proof.
  intros Hi. unfold saveStoredSignals; simpl.
  by apply (load_entry_save_entries _ 0).
Qed.

Lemma saved_storedSignals (l : list RFSignal) (d : Device) :
  storedSignals (saveStoredSignals (set_storedSignals l d)) = l.
Proof. done. Qed.

(** X1: a transmit, delete, rename or favorite request whose id is missing,
    negative or not below the size of the vector is answered 400 and leaves
    the whole device (vector, store, flags, outputs) as it was. *)
Theorem bad_id_rejected (d : Device) (id : option Z) :
  (∀ i, id = Some i → i < 0 ∨ size_of (storedSignals d) ≤ i) →
  api_transmit id d = (d, 400)
  ∧ api_delete id d = (d, 400)
  ∧ (∀ n, api_rename id n d = (d, 400))
  ∧ (∀ f, api_favorite id f d = (d, 400)).
Proof.
  intros Hid. destruct id as [i|].
  - assert (valid_id i d = false) as Hv.
    { apply not_true_iff_false. rewrite valid_id_true.
      destruct (Hid i eq_refl); lia. }
    unfold api_transmit, api_delete, api_rename, api_favorite.
    rewrite Hv. split_and!; [done..| |]; by intros [?|].
  - split_and!; done.
Qed.

Lemma bad_id_rejected_witness :
  api_delete (Some 3) (device_with (fresh_archive 3))
  = (device_with (fresh_archive 3), 400).
Proof.
  apply (bad_id_rejected (device_with (fresh_archive 3)) (Some 3)).
  intros i [= <-]. right. vm_compute. discriminate.
Defined.

(** X2: deleting a valid id removes exactly that position: the entries
    before it keep their ids, the entries after it move down by one, the
    size drops by one, and the count in the store drops with it. *)
Theorem delete_shifts_ids (d : Device) (id : Z) :
  0 ≤ id < size_of (storedSignals d) →
  let r := api_delete (Some id) d in
  snd r = 200
  ∧ size_of (storedSignals (fst r)) = size_of (storedSignals d) - 1
  ∧ (∀ j, (j < Z.to_nat id)%nat →
       storedSignals (fst r) !! j = storedSignals d !! j)
  ∧ (∀ j, (Z.to_nat id ≤ j)%nat →
       storedSignals (fst r) !! j = storedSignals d !! S j)
  ∧ getInt "signalCount" 0 (preferences (fst r))
    = size_of (storedSignals d) - 1.
Proof.
  intros Hid r. unfold r, api_delete.
  rewrite (proj2 (valid_id_true id d) Hid). cbn [fst snd].
  rewrite !saved_storedSignals.
  assert (size_of (delete (Z.to_nat id) (storedSignals d))
          = size_of (storedSignals d) - 1) as Hsize.
  { unfold size_of in *. rewrite length_delete; [lia|].
    by apply valid_id_lookup. }
  split_and!; [done|done| | |].
  - intros j Hj. by apply list_lookup_delete_lt.
  - intros j Hj. by apply list_lookup_delete_ge.
  - rewrite saveStoredSignals_count. exact Hsize.
Qed.

Lemma delete_shifts_ids_witness :
  storedSignals (fst (api_delete (Some 1) (device_with (fresh_archive 3))))
    !! 1%nat
  = storedSignals (device_with (fresh_archive 3)) !! 2%nat.
Proof.
  assert (0 ≤ 1 < size_of (storedSignals (device_with (fresh_archive 3))))
    as Hid by (vm_compute; split; [discriminate|done]).
  destruct (delete_shifts_ids (device_with (fresh_archive 3)) 1 Hid)
    as (_ & _ & _ & Hge & _).
  apply Hge. simpl. lia.
Defined.

(** X3: renaming a valid id gives that entry the new name and changes
    nothing else: the other fields of the entry, every other entry and the
    order stay; the new name is in the store under the entry's key. *)
Theorem rename_changes_one_name (d : Device) (id : Z) (n : string) :
  0 ≤ id < size_of (storedSignals d) →
  let r := api_rename (Some id) (Some n) d in
  snd r = 200
  ∧ (∃ s, storedSignals d !! Z.to_nat id = Some s
          ∧ storedSignals (fst r) !! Z.to_nat id
            = Some (mkRFSignal n (value s) (bitLength s) (protocol s)
                      (timestamp s) (isFavorite s)))
  ∧ (∀ j, j ≠ Z.to_nat id →
       storedSignals (fst r) !! j = storedSignals d !! j)
  ∧ getString (sigKey (Z.to_nat id) "name") "" (preferences (fst r)) = n.
Proof.
  intros Hid r. unfold r, api_rename.
  rewrite (proj2 (valid_id_true id d) Hid). cbn [fst snd].
  rewrite !saved_storedSignals.
  destruct (valid_id_lookup id d Hid) as [s Hs].
  assert (alter (set_name n) (Z.to_nat id) (storedSignals d)
            !! Z.to_nat id = Some (set_name n s)) as Hnew.
  { by rewrite list_lookup_alter_eq, Hs. }
  split_and!; [done| | |].
  - by exists s.
  - intros j Hj. by apply list_lookup_alter_ne.
  - pose proof (saveStoredSignals_entry
      (set_storedSignals
         (alter (set_name n) (Z.to_nat id) (storedSignals d)) d)
      _ _ Hnew) as Hload.
    apply (f_equal name) in Hload. exact Hload.
Qed.

Lemma rename_changes_one_name_witness :
  getString "sig1_name" ""
    (preferences
       (fst (api_rename (Some 1) (Some "garage")
               (device_with (fresh_archive 3)))))
  = "garage".
Proof.
  assert (0 ≤ 1 < size_of (storedSignals (device_with (fresh_archive 3))))
    as Hid by (vm_compute; split; [discriminate|done]).
  destruct (rename_changes_one_name (device_with (fresh_archive 3)) 1
              "garage" Hid) as (_ & _ & _ & Hname).
  exact Hname.
Defined.

(** X4: a favorite request on a valid id sets the flag of that entry to
    "the parameter is the string true" (any other string clears it) and
    changes nothing else; the flag is in the store under the entry's
    key. *)
Theorem favorite_changes_one_flag (d : Device) (id : Z) (v : string) :
  0 ≤ id < size_of (storedSignals d) →
  let r := api_favorite (Some id) (Some v) d in
  let b := bool_decide (v = "true") in
  snd r = 200
  ∧ (∃ s, storedSignals d !! Z.to_nat id = Some s
          ∧ storedSignals (fst r) !! Z.to_nat id
            = Some (mkRFSignal (name s) (value s) (bitLength s)
                      (protocol s) (timestamp s) b))
  ∧ (∀ j, j ≠ Z.to_nat id →
       storedSignals (fst r) !! j = storedSignals d !! j)
  ∧ getBool (sigKey (Z.to_nat id) "fav") false (preferences (fst r)) = b.
Proof.
  intros Hid r b. unfold r, api_favorite.
  rewrite (proj2 (valid_id_true id d) Hid). cbn [fst snd].
  rewrite !saved_storedSignals.
  assert (String.eqb v "true" = b) as ->.
  { unfold b. destruct (String.eqb_spec v "true") as [->|Hne]; [done|].
    by rewrite bool_decide_eq_false_2. }
  destruct (valid_id_lookup id d Hid) as [s Hs].
  assert (alter (set_isFavorite b) (Z.to_nat id) (storedSignals d)
            !! Z.to_nat id = Some (set_isFavorite b s)) as Hnew.
  { by rewrite list_lookup_alter_eq, Hs. }
  split_and!; [done| | |].
  - by exists s.
  - intros j Hj. by apply list_lookup_alter_ne.
  - pose proof (saveStoredSignals_entry
      (set_storedSignals
         (alter (set_isFavorite b) (Z.to_nat id) (storedSignals d)) d)
      _ _ Hnew) as Hload.
    apply (f_equal isFavorite) in Hload. exact Hload.
Qed.

Lemma favorite_changes_one_flag_witness :
  isFavorite <$>
    storedSignals
      (fst (api_favorite (Some 1) (Some "yes")
              (device_with (fresh_archive 3)))) !! 1%nat
  = Some false.
Proof.
  assert (0 ≤ 1 < size_of (storedSignals (device_with (fresh_archive 3))))
    as Hid by (vm_compute; split; [discriminate|done]).
  destruct (favorite_changes_one_flag (device_with (fresh_archive 3)) 1
              "yes" Hid) as (_ & (s & _ & Hnew) & _).
  change (Z.to_nat 1) with 1%nat in Hnew. by rewrite Hnew.
Defined.

(** ** Clearing, and what stays in the store *)

Lemma save_entries_dom (l : list RFSignal) (i : nat)
    (p : gmap string PrefValue) :
  dom p ⊆ dom (save_entries i l p).
Proof.
  revert i p. induction l as [|s l IH]; intros i p; simpl; [done|].
  etrans; [|apply IH].
  unfold save_entry, putBool, putULong, putUInt, putString.
  rewrite !dom_insert. set_solver.
Qed.

Lemma saveStoredSignals_dom (d : Device) :
  dom (preferences d) ⊆ dom (preferences (saveStoredSignals d)).
Proof.
  unfold saveStoredSignals; simpl. etrans; [|apply save_entries_dom].
  unfold putInt. rewrite !dom_insert. set_solver.
Qed.

Section Store.
Context `{StdSort}.

Lemma store_signal_dom (newSignal : RFSignal) (d : Device) :
  dom (preferences d) ⊆ dom (preferences (fst (store_signal newSignal d))).
Proof.
  assert (dom (preferences d)
          ⊆ dom (preferences
                   (if AUTO_CLEANUP_THRESHOLD <=? size_of (storedSignals d)
                    then performAutoCleanup d else d))) as Hd1.
  { case_match; [|done]. unfold performAutoCleanup.
    etrans; [|apply saveStoredSignals_dom]. done. }
  destruct (store_signal_cases newSignal d)
    as [[_ ->]|[(_ & _ & ->)|(_ & _ & ->)]]; cbn [fst]; [done|done|].
  etrans; [exact Hd1|]. etrans; [|apply saveStoredSignals_dom]. done.
Qed.

(** X5: no loop pass, request or reboot ever removes a key from the store;
    in particular "clear all" leaves every entry written earlier
    ([sig{i}_val] and the rest) readable in the store. *)
Theorem store_never_forgets (d : Device) (r : Request) (i : nat)
    (f : string) :
  dom (preferences d) ⊆ dom (preferences (step r d))
  ∧ preferences (fst (api_clear d)) !! sigKey i f
    = preferences d !! sigKey i f.
Proof.
  split.
  - destruct r as [rx now later|e|e|e|id|id|id n|id fv| | |days now|];
      cbn [step].
    + unfold loop. destruct rx as [rx|]; [|done].
      destruct (sniffingEnabled d); [|done].
      destruct (decide (rx_value rx = 0)) as [Hv|Hv].
      { by rewrite handleReceivedSignal_zero. }
      rewrite handleReceivedSignal_nonzero by done. cbn [fst].
      destruct (receive_feedback_frame
        (fst (store_signal (newSignal_of rx now d)
                (set_signalCount (int_of (signalCount d + 1)) d)))) as (_ & Hp & _).
      cbn [preferences set_lastSignalTime]. rewrite Hp.
      apply (store_signal_dom _ (set_signalCount (int_of (signalCount d + 1)) d)).
    + destruct e; [|done]. cbn. unfold putBool. rewrite dom_insert.
      set_solver.
    + destruct e; [|done]. cbn. unfold putBool. rewrite dom_insert.
      set_solver.
    + destruct e; [|done]. cbn. unfold putBool. rewrite dom_insert.
      set_solver.
    + unfold api_transmit. destruct id as [id|]; [|done].
      destruct (valid_id id d); [|done].
      destruct (storedSignals d !! Z.to_nat id) as [s|]; [|done].
      cbn [fst]. by destruct (transmitSignal_frame s d) as [_ ->].
    + unfold api_delete. destruct id as [id|]; [|done].
      destruct (valid_id id d); [|done]. cbn [fst].
      etrans; [|apply saveStoredSignals_dom]. done.
    + unfold api_rename. destruct id as [id|], n as [n|]; try done.
      destruct (valid_id id d); [|done]. cbn [fst].
      etrans; [|apply saveStoredSignals_dom]. done.
    + unfold api_favorite. destruct id as [id|], fv as [fv|]; try done.
      destruct (valid_id id d); [|done]. cbn [fst].
      etrans; [|apply saveStoredSignals_dom]. done.
    + unfold api_clear. cbn [fst].
      etrans; [|apply saveStoredSignals_dom]. done.
    + unfold api_cleanup. cbn [fst]. unfold performAutoCleanup.
      etrans; [|apply saveStoredSignals_dom]. done.
    + unfold api_cleanup_old. cbn [fst].
      etrans; [|apply saveStoredSignals_dom]. done.
    + done.
  - unfold api_clear, saveStoredSignals, putInt. cbn.
    rewrite !lookup_insert_ne; [done|..];
      intros Heq; apply (sigKey_not_meta i f); rewrite <-Heq;
      unfold meta_key; tauto.
Qed.

(** X6: after "clear all" the vector is empty and stays empty over a
    reboot, the name counter is back at 0, and the next non-zero reading is
    stored as the only signal, under the name Signal_0. *)
Theorem clear_starts_over (d : Device) (rx : Reading) (now later : Z) :
  rx_value rx ≠ 0 →
  let d1 := fst (api_clear d) in
  let r := handleReceivedSignal rx now later d1 in
  storedSignals d1 = []
  ∧ signalCount d1 = 0
  ∧ storedSignals (setup (preferences d1)) = []
  ∧ signalCount (setup (preferences d1)) = 0
  ∧ snd r = Some (Stored 1)
  ∧ storedSignals (fst r)
    = [mkRFSignal "Signal_0" (rx_value rx) (rx_bitLength rx)
         (rx_protocol rx) now false].
Proof.
  intros Hv d1 r.
  assert (storedSignals d1 = []) as Hempty by done.
  assert (signalCount d1 = 0) as Hcount by done.
  set (new := newSignal_of rx now d1).
  set (d0 := set_signalCount (int_of (signalCount d1 + 1)) d1).
  assert (store_signal new d0
          = (saveStoredSignals (set_storedSignals [new] d0), Stored 1))
    as Hstore.
  { assert (storedSignals d0 = []) as Hd0 by done.
    unfold store_signal. by rewrite Hd0. }
  pose proof (handleReceivedSignal_nonzero rx now later d1 Hv) as Hh.
  cbv zeta in Hh. fold new d0 r in Hh. rewrite Hstore in Hh. cbn [fst snd] in Hh.
  split_and!; [done|done| | | |].
  - rewrite setup_storedSignals. unfold d1, api_clear. cbn [fst].
    by rewrite persisted_saveStoredSignals.
  - unfold d1, api_clear. cbn [fst].
    change (signalCount (setup ?p)) with (getInt "nextId" 0 p).
    by rewrite saveStoredSignals_nextId.
  - by rewrite Hh.
  - rewrite Hh. cbn [fst storedSignals set_lastSignalTime].
    destruct (receive_feedback_frame
      (saveStoredSignals (set_storedSignals [new] d0))) as (-> & _).
    cbn. unfold new, newSignal_of. by rewrite Hcount.
Qed.

End Store.

Lemma clear_starts_over_witness :
  name <$> storedSignals
    (fst (handleReceivedSignal new_reading 7 8
            (fst (api_clear (device_with (fresh_archive 3))))))
  = ["Signal_0"].
Proof.
  assert (rx_value new_reading ≠ 0) as Hv by done.
  destruct (clear_starts_over (device_with (fresh_archive 3))
              new_reading 7 8 Hv) as (_ & _ & _ & _ & _ & Hl).
  by rewrite Hl.
Defined.

(** ** The three settings *)

Lemma setup_flags (p : gmap string PrefValue) :
  sniffingEnabled (setup p) = getBool "sniffingEnabled" true p
  ∧ buzzerEnabled (setup p) = getBool "buzzerEnabled" true p
  ∧ ledEnabled (setup p) = getBool "ledEnabled" true p
  ∧ preferences (setup p) = p.
Proof. done. Qed.

Lemma eqb_true_decide (v : string) :
  String.eqb v "true" = bool_decide (v = "true").
Proof.
  destruct (String.eqb_spec v "true") as [->|Hne]; [done|].
  by rewrite bool_decide_eq_false_2.
Qed.

(** X7: each of the three setters turns its flag on exactly when the
    parameter is the string true, leaves the other two flags and the vector
    alone, and the new value is the one the device boots with. *)
Theorem settings_persist (d : Device) (v : string) :
  let on := bool_decide (v = "true") in
  let s := fst (api_sniffing (Some v) d) in
  let b := fst (api_buzzer (Some v) d) in
  let l := fst (api_led (Some v) d) in
  (sniffingEnabled s = on ∧ sniffingEnabled (setup (preferences s)) = on
   ∧ buzzerEnabled s = buzzerEnabled d ∧ ledEnabled s = ledEnabled d
   ∧ storedSignals s = storedSignals d)
  ∧ (buzzerEnabled b = on ∧ buzzerEnabled (setup (preferences b)) = on
     ∧ sniffingEnabled b = sniffingEnabled d ∧ ledEnabled b = ledEnabled d
     ∧ storedSignals b = storedSignals d)
  ∧ (ledEnabled l = on ∧ ledEnabled (setup (preferences l)) = on
     ∧ sniffingEnabled l = sniffingEnabled d
     ∧ buzzerEnabled l = buzzerEnabled d
     ∧ storedSignals l = storedSignals d).
Proof.
  intros on s b l. unfold s, b, l, api_sniffing, api_buzzer, api_led.
  cbn [fst]. rewrite eqb_true_decide. fold on.
  destruct (setup_flags
    (putBool "sniffingEnabled" on (preferences (set_sniffingEnabled on d))))
    as (Hs & _).
  destruct (setup_flags
    (putBool "buzzerEnabled" on (preferences (set_buzzerEnabled on d))))
    as (_ & Hb & _).
  destruct (setup_flags
    (putBool "ledEnabled" on (preferences (set_ledEnabled on d))))
    as (_ & _ & Hl & _).
  cbn [preferences set_preferences]. rewrite Hs, Hb, Hl.
  unfold getBool, putBool. rewrite !lookup_insert_eq. done.
Qed.

Section Passes.
Context `{StdSort}.

Lemma loop_passes_off (passes : list (option Reading * Z * Z))
    (d : Device) :
  sniffingEnabled d = false → loop_passes passes d = d.
Proof.
  intros Hoff. induction passes as [|[[rx now] later] passes IH]; [done|].
  unfold loop_passes in *. cbn [foldl]. unfold loop at 2.
  rewrite Hoff. by destruct rx.
Qed.

(** X8: once sniffing has been set with a parameter other than the string
    true, the loop leaves the device as it is, whatever readings the
    receiver holds. *)
Theorem sniffing_off_ignores_readings (d : Device) (v : string)
    (passes : list (option Reading * Z * Z)) :
  v ≠ "true" →
  loop_passes passes (fst (api_sniffing (Some v) d))
  = fst (api_sniffing (Some v) d).
Proof.
  intros Hv. apply loop_passes_off. cbn.
  rewrite eqb_true_decide. by apply bool_decide_eq_false_2.
Qed.

(** X9: when the file system does not mount, [setup] loads nothing from
    the store and plays no start-up sound, sniffing is off, and the loop
    never changes the device. *)
Theorem mount_failure_is_inert (p : gmap string PrefValue)
    (passes : list (option Reading * Z * Z)) :
  let d := setup_mounting false p in
  storedSignals d = [] ∧ outputs d = [] ∧ sniffingEnabled d = false
  ∧ loop_passes passes d = d.
Proof.
  intros d. split_and!; [done..|]. by apply loop_passes_off.
Qed.

End Passes.

Lemma sniffing_off_ignores_readings_witness :
  loop_passes [(Some new_reading, 5, 6); (Some repeated_reading, 7, 8)]
    (fst (api_sniffing (Some "false") (device_with (fresh_archive 3))))
  = fst (api_sniffing (Some "false") (device_with (fresh_archive 3))).
Proof.
  apply (sniffing_off_ignores_readings (device_with (fresh_archive 3))
           "false").
  done.
Defined.

(** ** Transmitting *)

Lemma transmitSignal_outputs (signal : RFSignal) (d : Device) :
  outputs (transmitSignal signal d)
  = outputs d
    ++ [RadioSend (protocol signal) (value signal) (bitLength signal)]
    ++ (if buzzerEnabled d then [PlayTransmitSound] else [])
    ++ (if ledEnabled d then [FlashLED 200 2] else []).
Proof.
  unfold transmitSignal. cbn.
  destruct (buzzerEnabled d); cbn; destruct (ledEnabled d); cbn;
    rewrite <-?(assoc_L (++)); done.
Qed.

Lemma api_transmit_stored (d : Device) (id : Z) (s : RFSignal) :
  0 ≤ id →
  storedSignals d !! Z.to_nat id = Some s →
  api_transmit (Some id) d = (transmitSignal s d, 200).
Proof.
  intros Hid Hs. unfold api_transmit.
  assert (valid_id id d = true) as ->.
  { apply valid_id_true. apply lookup_lt_Some in Hs.
    unfold size_of. lia. }
  by rewrite Hs.
Qed.

(** X10: a transmit request for the id at which a signal is stored sends
    that signal's protocol, value and bit length, then gives the transmit
    feedback that the flags allow; it changes neither the vector nor the
    store. *)
Theorem transmit_sends_stored_code (d : Device) (id : Z) (s : RFSignal) :
  0 ≤ id →
  storedSignals d !! Z.to_nat id = Some s →
  let r := api_transmit (Some id) d in
  snd r = 200
  ∧ outputs (fst r)
    = outputs d
      ++ [RadioSend (protocol s) (value s) (bitLength s)]
      ++ (if buzzerEnabled d then [PlayTransmitSound] else [])
      ++ (if ledEnabled d then [FlashLED 200 2] else [])
  ∧ storedSignals (fst r) = storedSignals d
  ∧ preferences (fst r) = preferences d.
Proof.
  intros Hid Hs r. unfold r. rewrite (api_transmit_stored d id s) by done.
  cbn [fst snd].
  destruct (transmitSignal_frame s d) as [-> ->].
  by rewrite transmitSignal_outputs.
Qed.

Lemma transmit_sends_stored_code_witness :
  outputs (fst (api_transmit (Some 1) (device_with (fresh_archive 3))))
  = [RadioSend 1 2 24; PlayTransmitSound; FlashLED 200 2].
Proof.
  assert (0 ≤ 1) as Hid by done.
  assert (storedSignals (device_with (fresh_archive 3)) !! Z.to_nat 1
          = Some (sample 1 2 false)) as Hs by done.
  destruct (transmit_sends_stored_code _ 1 _ Hid Hs) as (_ & Hout & _).
  exact Hout.
Defined.

Section Storing.
Context `{StdSort}.

(** Whenever the storage step answers "Signal stored (n/1000)", the new
    signal is the last of the vector and [n] is the new size. *)
Lemma store_signal_stored (newSignal : RFSignal) (d : Device) (n : Z) :
  snd (store_signal newSignal d) = Stored n →
  ∃ kept,
    storedSignals (fst (store_signal newSignal d)) = kept ++ [newSignal]
    ∧ kept ⊆+ storedSignals d
    ∧ n = size_of kept + 1 ∧ n ≤ MAX_SIGNALS
    ∧ isDuplicate newSignal (storedSignals d) = false.
Proof.
  intros Hout.
  destruct (store_signal_cases newSignal d)
    as [[_ Heq]|[(_ & _ & Heq)|(Hdup & Hlt & Heq)]];
    rewrite Heq in Hout |- *; cbn [fst snd] in *; try done.
  injection Hout as <-.
  eexists. split_and!; [by rewrite saved_storedSignals| |done|lia|done].
  case_match; [|done]. apply cleanup_signals_submseteq.
Qed.

(** X11: a stored signal can be replayed at once: when a reading is
    answered "Signal stored (n/1000)", the new signal has id [n - 1], its
    name is Signal_ followed by the counter, its timestamp is the clock
    value read, it is not a favorite, and a transmit request for that id
    sends the protocol, value and bit length that were received. *)
Theorem stored_signal_replays (d : Device) (rx : Reading) (now later : Z)
    (n : Z) :
  rx_value rx ≠ 0 →
  snd (handleReceivedSignal rx now later d) = Some (Stored n) →
  let d' := fst (handleReceivedSignal rx now later d) in
  size_of (storedSignals d') = n ∧ n ≤ MAX_SIGNALS
  ∧ storedSignals d' !! Z.to_nat (n - 1)
    = Some (mkRFSignal ("Signal_" +:+ pretty (signalCount d))
              (rx_value rx) (rx_bitLength rx) (rx_protocol rx) now false)
  ∧ ∃ feedback,
      outputs (fst (api_transmit (Some (n - 1)) d'))
      = outputs d'
        ++ RadioSend (rx_protocol rx) (rx_value rx) (rx_bitLength rx)
           :: feedback.
Proof.
  intros Hv Hout d'. unfold d'.
  rewrite handleReceivedSignal_nonzero in Hout |- * by done.
  cbn [fst snd] in *. injection Hout as Hout.
  set (new := newSignal_of rx now d) in *.
  set (d0 := set_signalCount (int_of (signalCount d + 1)) d) in *.
  destruct (store_signal_stored new d0 n Hout)
    as (kept & Hl & _ & Hn & Hmax & _).
  destruct (receive_feedback_frame (fst (store_signal new d0)))
    as (Hs & _).
  set (d1 := set_lastSignalTime later
               (receive_feedback (fst (store_signal new d0)))).
  assert (storedSignals d1 = kept ++ [new]) as Hd1.
  { unfold d1. cbn [storedSignals set_lastSignalTime]. by rewrite Hs. }
  assert (storedSignals d1 !! Z.to_nat (n - 1) = Some new) as Hlast.
  { rewrite Hd1. unfold size_of in Hn.
    replace (Z.to_nat (n - 1)) with (length kept + 0)%nat by lia.
    by rewrite lookup_app_r, Nat.add_comm, Nat.add_sub by lia. }
  split_and!; [|done|done|].
  - unfold size_of in *. rewrite Hd1, length_app. simpl. lia.
  - assert (0 ≤ n - 1) as Hid by (unfold size_of in Hn; lia).
    rewrite (api_transmit_stored d1 (n - 1) new) by done. cbn [fst].
    rewrite transmitSignal_outputs. eexists. reflexivity.
Qed.

(** X12: a non-zero reading is answered "Duplicate" only when a stored
    signal has its value, bit length and protocol: names, timestamps and
    favorite flags play no part, and no new code is ever turned away as a
    duplicate. *)
Theorem duplicate_iff_triple_stored (d : Device) (rx : Reading)
    (now later : Z) :
  rx_value rx ≠ 0 →
  snd (handleReceivedSignal rx now later d) = Some Duplicate
  ↔ ∃ s, s ∈ storedSignals d
         ∧ value s = rx_value rx
         ∧ bitLength s = rx_bitLength rx
         ∧ protocol s = rx_protocol rx.
Proof.
  intros Hv. rewrite handleReceivedSignal_nonzero by done. cbn [snd].
  set (new := newSignal_of rx now d).
  set (d0 := set_signalCount (int_of (signalCount d + 1)) d).
  assert ((∃ s, s ∈ storedSignals d ∧ value s = rx_value rx
                ∧ bitLength s = rx_bitLength rx
                ∧ protocol s = rx_protocol rx)
          ↔ isDuplicate new (storedSignals d0) = true) as ->.
  { rewrite isDuplicate_true. unfold triple. cbn.
    split; intros (s & Hin & Ht); exists s; (split; [done|]).
    - destruct Ht as (-> & -> & ->). done.
    - by injection Ht as -> -> ->. }
  destruct (store_signal_cases new d0)
    as [[Hdup ->]|[(Hdup & _ & ->)|(Hdup & _ & ->)]]; cbn [snd];
    rewrite Hdup; split; (done || discriminate || (intros [=])).
Qed.

(** X13: below the watermark of 950 an insert erases nothing: a non-zero
    reading that is not a duplicate is appended to the vector as it stands,
    the answer is "Signal stored" with the old size plus one, and the new
    entry is in the store under the keys of its position. *)
Theorem insert_below_watermark (d : Device) (rx : Reading) (now later : Z) :
  rx_value rx ≠ 0 →
  size_of (storedSignals d) < AUTO_CLEANUP_THRESHOLD →
  (rx_value rx, rx_bitLength rx, rx_protocol rx)
    ∉ triple <$> storedSignals d →
  let r := handleReceivedSignal rx now later d in
  snd r = Some (Stored (size_of (storedSignals d) + 1))
  ∧ storedSignals (fst r)
    = storedSignals d
      ++ [mkRFSignal ("Signal_" +:+ pretty (signalCount d))
            (rx_value rx) (rx_bitLength rx) (rx_protocol rx) now false]
  ∧ load_entry (length (storedSignals d)) (preferences (fst r))
    = mkRFSignal ("Signal_" +:+ pretty (signalCount d))
        (rx_value rx) (rx_bitLength rx) (rx_protocol rx) now false.
Proof.
  intros Hv Hsize Hfresh r. unfold r.
  rewrite handleReceivedSignal_nonzero by done. cbn [fst snd].
  set (new := newSignal_of rx now d).
  set (d0 := set_signalCount (int_of (signalCount d + 1)) d).
  destruct (receive_feedback_frame (fst (store_signal new d0)))
    as (Hs & Hp & _).
  cbn [storedSignals preferences set_lastSignalTime]. rewrite Hs, Hp.
  assert (isDuplicate new (storedSignals d0) = false) as Hdup
    by (by apply isDuplicate_false).
  assert ((AUTO_CLEANUP_THRESHOLD <=? size_of (storedSignals d0)) = false)
    as Hth by (apply Z.leb_gt; exact Hsize).
  destruct (store_signal_cases new d0)
    as [[Hyes _]|[(_ & Hfull & _)|(_ & _ & ->)]].
  - congruence.
  - rewrite Hth in Hfull. cbn in Hfull.
    unfold AUTO_CLEANUP_THRESHOLD, MAX_SIGNALS in *. lia.
  - rewrite Hth. cbn [fst snd]. rewrite saved_storedSignals.
    split_and!; [done|done|].
    apply saveStoredSignals_entry. cbn [storedSignals set_storedSignals].
    change (storedSignals d0) with (storedSignals d).
    by rewrite list_lookup_middle.
Qed.

End Storing.

Lemma stored_signal_replays_witness :
  ∃ feedback,
    outputs
      (fst (api_transmit (Some (4 - 1))
              (fst (handleReceivedSignal new_reading 5 6
                      (device_with (fresh_archive 3))))))
    = outputs (fst (handleReceivedSignal new_reading 5 6
                      (device_with (fresh_archive 3))))
      ++ RadioSend 1 5000 24 :: feedback.
Proof.
  assert (rx_value new_reading ≠ 0) as Hv by done.
  assert (snd (handleReceivedSignal new_reading 5 6
                 (device_with (fresh_archive 3))) = Some (Stored 4))
    as Hout by (vm_compute; done).
  destruct (stored_signal_replays _ _ _ _ _ Hv Hout) as (_ & _ & _ & Hex).
  exact Hex.
Defined.

Lemma duplicate_iff_triple_stored_witness :
  snd (handleReceivedSignal new_reading 5 6 (device_with (fresh_archive 3)))
  ≠ Some Duplicate.
Proof.
  assert (rx_value new_reading ≠ 0) as Hv by done.
  intros Hdup.
  apply (duplicate_iff_triple_stored (device_with (fresh_archive 3))
           new_reading 5 6 Hv) in Hdup as (s & Hin & Hval & _).
  unfold device_with, fresh_archive in Hin. cbn in Hin.
  repeat (apply elem_of_cons in Hin as [->|Hin]; [discriminate Hval|]).
  by apply elem_of_nil in Hin.
Defined.

Lemma insert_below_watermark_witness :
  snd (handleReceivedSignal new_reading 5 6 (device_with (fresh_archive 3)))
  = Some (Stored 4).
Proof.
  apply (insert_below_watermark (device_with (fresh_archive 3))
           new_reading 5 6).
  - done.
  - vm_compute. done.
  - apply (bool_decide_eq_true_1 _). vm_compute. done.
Defined.

(** ** Booting *)

(** X14: whatever the store holds, the vector a boot builds from it has no
    signal of value zero and no more signals than the stored count (none
    when the count is missing, of another type, zero or negative), and the
    name counter is the stored [nextId], or 0 without one. *)
Theorem boot_from_any_store (p : gmap string PrefValue) :
  Forall (λ s, value s ≠ 0) (storedSignals (setup p))
  ∧ size_of (storedSignals (setup p)) ≤ Z.max 0 (getInt "signalCount" 0 p)
  ∧ signalCount (setup p) = getInt "nextId" 0 p.
Proof.
  rewrite setup_storedSignals. unfold persisted. split_and!; [| |done].
  - by apply load_entries_nonzero.
  - pose proof (load_entries_length
      (Z.to_nat (getInt "signalCount" 0 p)) 0 p []) as Hlen.
    unfold size_of. simpl in Hlen. lia.
Qed.






Section Reboot.
Context `{StdSort}.





End Reboot.


(** ** The age purge, where it does what it says *)

Lemma purge_old_filter (cutoff : Z) (l : list RFSignal) :
  purge_old cutoff l
  = filter (λ s, isFavorite s = true ∨ cutoff ≤ timestamp s) l.
Proof.
  induction l as [|s l IH]; [done|]. cbn [purge_old].
  destruct (negb (isFavorite s) && (timestamp s <? cutoff)) eqn:Hs.
  - apply andb_prop in Hs as [Hf%negb_true_iff Ht%Z.ltb_lt].
    rewrite filter_cons_False; [done|]. intros [?|?]; [congruence|lia].
  - rewrite filter_cons_True; [by rewrite IH|].
    apply andb_false_iff in Hs as [Hf%negb_false_iff|Ht%Z.ltb_ge]; tauto.
Qed.

(** X16: whatever the age limit and the clock, the purge never erases a
    favorite, never reorders or adds a signal, and reports the number of
    signals it erased. *)
Theorem purge_spares_favorites (d : Device) (days : option Z) (now : Z) :
  let r := api_cleanup_old days now d in
  favorites (storedSignals (fst r)) = favorites (storedSignals d)
  ∧ storedSignals (fst r) `sublist_of` storedSignals d
  ∧ snd r = Z.of_nat (length (storedSignals d)
                      - length (storedSignals (fst r)))
  ∧ getInt "signalCount" 0 (preferences (fst r))
    = size_of (storedSignals (fst r)).
Proof.
  intros r. unfold r, api_cleanup_old. cbn [fst snd].
  rewrite saved_storedSignals, saveStoredSignals_count.
  cbn [storedSignals set_storedSignals].
  split_and!; [apply purge_old_favorites|apply purge_old_sublist| |done].
  pose proof (sublist_length _ _
    (purge_old_sublist
       (cutoffTime now match days with Some n => n | None => 7 end)
       (storedSignals d))).
  unfold size_of. lia.
Qed.

(** X17: when the device has been up for at least the age limit (so that
    the cut-off does not wrap), the purge keeps, in their order, exactly the
    favorites and the signals captured at most the limit ago. *)
Theorem purge_exact_after_uptime (d : Device) (daysOld now : Z) :
  0 ≤ daysOld * 24 * 60 * 60 * 1000 ≤ now → now < ULONG_MODULUS →
  storedSignals (fst (api_cleanup_old (Some daysOld) now d))
  = filter (λ s, isFavorite s = true
                 ∨ now - timestamp s ≤ daysOld * 24 * 60 * 60 * 1000)
      (storedSignals d).
Proof.
  intros Hage Hnow. unfold api_cleanup_old. cbn [fst].
  rewrite saved_storedSignals. cbn [storedSignals set_storedSignals].
  rewrite purge_old_filter, cutoffTime_no_wrap by done.
  apply list_filter_iff. intros s. split; (intros [?|?]; [by left|right; lia]).
Qed.

Lemma purge_exact_after_uptime_witness :
  storedSignals
    (fst (api_cleanup_old (Some 1) 100000000
            (device_with
               [sample 0 5 false; sample 1 6 true; sample 2 50000000 false])))
  = [sample 1 6 true; sample 2 50000000 false].
Proof.
  rewrite (purge_exact_after_uptime _ 1 100000000).
  - vm_compute. done.
  - lia.
  - vm_compute. done.
Defined.

(** ** The favorite count of the status report *)

Lemma count_favorites_spec (l : list RFSignal) (c : Z) :
  count_favorites l c = c + Z.of_nat (length (favorites l)).
Proof.
  revert c. unfold favorites.
  induction l as [|s l IH]; intros c; cbn [count_favorites]; [simpl; lia|].
  rewrite IH. destruct (isFavorite s) eqn:Hf.
  - rewrite filter_cons_True by done. simpl. lia.
  - rewrite filter_cons_False by congruence. done.
Qed.

Section FavoriteCount.
Context `{StdSort}.

(** X18: the favorite count of the status report lies between 0 and the
    number of stored signals, and neither a cleanup nor an age purge
    changes it. *)
Theorem favorite_count_stable (d : Device) (days : option Z) (now : Z) :
  0 ≤ count_favorites (storedSignals d) 0 ≤ size_of (storedSignals d)
  ∧ count_favorites (storedSignals (fst (api_cleanup d))) 0
    = count_favorites (storedSignals d) 0
  ∧ count_favorites (storedSignals (fst (api_cleanup_old days now d))) 0
    = count_favorites (storedSignals d) 0.
Proof.
  rewrite !count_favorites_spec. split; [|split].
  - pose proof (length_filter (λ s, isFavorite s = true) (storedSignals d)).
    unfold favorites, size_of. lia.
  - pose proof (Permutation_length
      (cleanup_signals_favorites (storedSignals d))) as Hlen.
    change (fst (cleanup_signals (storedSignals d)))
      with (storedSignals (fst (api_cleanup d))) in Hlen.
    by rewrite Hlen.
  - unfold api_cleanup_old. cbn [fst]. rewrite saved_storedSignals.
    cbn [storedSignals set_storedSignals]. by rewrite purge_old_favorites.
Qed.

End FavoriteCount.

(** ** The feedback routines *)

Lemma flash_loop_spec (n : nat) (duration : Z) (high : bool) (freq : Z) :
  delayed (flash_loop n duration)
  = 2 * (duration mod ULONG_MODULUS) * Z.of_nat n
  ∧ led_after high (flash_loop n duration)
    = (if n is O then high else false)
  ∧ tone_after freq (flash_loop n duration) = freq.
Proof.
  revert high. induction n as [|n IH]; intros high.
  { cbn. split_and!; [lia|done|done]. }
  destruct (IH false) as (Hd & Hl & Ht).
  cbn [flash_loop app delayed led_after tone_after].
  rewrite !Z.eqb_refl, Hd, Hl, Ht. split_and!; [lia|by destruct n|done].
Qed.

(** X19: for a duration that is not negative, [flashLED(duration, times)]
    keeps the caller in [delay] for [2 * duration * times] milliseconds and
    leaves the LED off; with [times] zero or negative it makes no hardware
    call at all and the LED stays as it was. *)
Theorem flashLED_blocks_and_ends_dark (duration times : Z) (high : bool) :
  0 ≤ duration < ULONG_MODULUS →
  delayed (flashLED duration times) = 2 * duration * Z.max 0 times
  ∧ led_after high (flashLED duration times)
    = (if 0 <? times then false else high)
  ∧ flashLED duration (Z.min 0 times) = [].
Proof.
  intros Hd. unfold flashLED.
  destruct (flash_loop_spec (Z.to_nat times) duration high 0)
    as (-> & -> & _).
  rewrite Z.mod_small by done. split_and!.
  - lia.
  - destruct (0 <? times) eqn:Ht.
    + apply Z.ltb_lt in Ht. by destruct (Z.to_nat times) eqn:Hn; [lia|].
    + apply Z.ltb_ge in Ht. by replace (Z.to_nat times) with 0%nat by lia.
  - by replace (Z.to_nat (Z.min 0 times)) with 0%nat by lia.
Qed.

Lemma flashLED_blocks_and_ends_dark_witness :
  delayed (flashLED 100 3) = 600 ∧ led_after true (flashLED 100 3) = false.
Proof.
  destruct (flashLED_blocks_and_ends_dark 100 3 true) as (Hd & Hl & _).
  - vm_compute. split; [discriminate|done].
  - split; [exact Hd|exact Hl].
Defined.

(** X20: every feedback routine ends with the buzzer silent and the LED
    off, so after any sequence of outputs of the device, started with the
    buzzer silent and the LED off, both are off again. *)
Theorem feedback_leaves_hardware_idle (os : list Output) :
  tone_after 0 (os ≫= hardware_of) = 0
  ∧ led_after false (os ≫= hardware_of) = false.
Proof.
  assert (∀ calls rest f, tone_after f (calls ++ rest)
                          = tone_after (tone_after f calls) rest) as Htone.
  { induction calls as [|[] calls IH]; intros; cbn; auto. }
  assert (∀ calls rest h, led_after h (calls ++ rest)
                          = led_after (led_after h calls) rest) as Hled.
  { induction calls as [|[] calls IH]; intros; cbn; auto. }
  induction os as [|o os [IHt IHl]]; [done|].
  rewrite bind_cons, Htone, Hled.
  assert (tone_after 0 (hardware_of o) = 0
          ∧ led_after false (hardware_of o) = false) as [-> ->]; [|done].
  destruct o as [| | |duration times|]; try done. cbn [hardware_of].
  unfold flashLED.
  destruct (flash_loop_spec (Z.to_nat times) duration false 0)
    as (_ & -> & ->).
  by destruct (Z.to_nat times).
Qed.

Section Blocking.
Context `{StdSort}.

(** X21: the time the feedback keeps its caller in [delay]: handling a
    non-zero reading takes 220 ms for the tone if the buzzer is on plus
    600 ms for the flashes if the LED is on, whatever becomes of the
    reading; a transmit request with a valid id takes 320 ms plus 800 ms in
    the same way; a zero reading and a rejected request take none. *)
Theorem feedback_blocking_time (d : Device) (rx : Reading) (now later : Z)
    (id : Z) :
  delayed (drop (length (outputs d))
             (outputs (fst (handleReceivedSignal rx now later d)))
           ≫= hardware_of)
  = (if rx_value rx =? 0 then 0
     else (if buzzerEnabled d then 220 else 0)
          + (if ledEnabled d then 600 else 0))
  ∧ delayed (drop (length (outputs d))
               (outputs (fst (api_transmit (Some id) d)))
             ≫= hardware_of)
    = (if valid_id id d
       then (if buzzerEnabled d then 320 else 0)
            + (if ledEnabled d then 800 else 0)
       else 0).
Proof.
  split.
  - destruct (rx_value rx =? 0) eqn:Hv.
    + apply Z.eqb_eq in Hv. rewrite handleReceivedSignal_zero by done.
      cbn [fst]. by rewrite drop_all.
    + apply Z.eqb_neq in Hv. rewrite handleReceivedSignal_nonzero by done.
      cbn [fst outputs set_lastSignalTime].
      rewrite receive_feedback_outputs.
      destruct (store_signal_frame (newSignal_of rx now d)
                  (set_signalCount (int_of (signalCount d + 1)) d))
        as (-> & -> & _ & -> & _).
      cbn [outputs buzzerEnabled ledEnabled set_signalCount].
      rewrite drop_app_length.
      by destruct (buzzerEnabled d), (ledEnabled d).
  - unfold api_transmit. destruct (valid_id id d) eqn:Hid.
    + apply valid_id_true in Hid.
      destruct (valid_id_lookup id d Hid) as [s ->]. cbn [fst].
      rewrite transmitSignal_outputs, drop_app_length.
      by destruct (buzzerEnabled d), (ledEnabled d).
    + cbn [fst]. by rewrite drop_all.
Qed.

End Blocking.

(** ** Names *)

Lemma signal_name_inj (a b : string) :
  "Signal_" +:+ a = "Signal_" +:+ b → a = b.
Proof. cbv [String.append]. intros Heq. by simplify_eq. Qed.

Lemma auto_named_mono (b b' : Z) (s : RFSignal) :
  b ≤ b' → auto_named b s → auto_named b' s.
Proof. intros Hb (k & Hk & Hn). exists k. split; [lia|done]. Qed.

Lemma names_ok_saved (l : list RFSignal) (d : Device) (bound : Z) :
  Forall (auto_named bound) l → bound ≤ signalCount d →
  NoDup (name <$> l) →
  names_ok (saveStoredSignals (set_storedSignals l d)).
Proof.
  intros Hl Hb Hnd. unfold names_ok.
  rewrite saveStoredSignals_nextId, saved_storedSignals.
  cbn [signalCount set_storedSignals saveStoredSignals set_preferences].
  split_and!; [|done|done].
  eapply Forall_impl; [exact Hl|]. intros s. by apply auto_named_mono.
Qed.

Lemma names_ok_sub (l : list RFSignal) (d d' : Device) :
  names_ok d → l ⊆+ storedSignals d →
  getInt "nextId" 0 (preferences d) ≤ signalCount d' →
  names_ok (saveStoredSignals (set_storedSignals l d')).
Proof.
  intros (Hl & _ & Hnd) Hsub Hc.
  apply (names_ok_saved _ _ (getInt "nextId" 0 (preferences d)));
    [|done|].
  - apply Forall_forall. intros s Hs. rewrite Forall_forall in Hl.
    apply Hl. by eapply elem_of_submseteq.
  - eapply NoDup_submseteq_inv; [|exact Hnd]. by apply fmap_submseteq.
Qed.

Lemma names_ok_frame (d d' : Device) :
  storedSignals d' = storedSignals d →
  getInt "nextId" 0 (preferences d') = getInt "nextId" 0 (preferences d) →
  signalCount d ≤ signalCount d' →
  names_ok d → names_ok d'.
Proof.
  intros Hs Hp Hc (Hl & Hb & Hnd). unfold names_ok.
  rewrite Hs, Hp. split_and!; [done|lia|done].
Qed.

Lemma nextId_insert_flag (k : string) (v : PrefValue)
    (p : gmap string PrefValue) :
  flag_key k → getInt "nextId" 0 (<[k := v]> p) = getInt "nextId" 0 p.
Proof.
  intros Hk. unfold getInt. rewrite lookup_insert_ne; [done|].
  by destruct Hk as [->|[->| ->]].
Qed.

Lemma int_of_small (z : Z) : - 2 ^ 31 ≤ z < 2 ^ 31 → int_of z = z.
Proof. intros Hz. unfold int_of. rewrite Z.mod_small; lia. Qed.

Lemma counter_within_saved (l : list RFSignal) (d : Device) (n : Z) :
  0 ≤ signalCount d ≤ n →
  counter_within n (saveStoredSignals (set_storedSignals l d)).
Proof.
  intros Hc. unfold counter_within. rewrite saveStoredSignals_nextId.
  cbn [signalCount set_storedSignals saveStoredSignals set_preferences].
  lia.
Qed.

Lemma counter_within_frame (d d' : Device) (n : Z) :
  getInt "nextId" 0 (preferences d') = getInt "nextId" 0 (preferences d) →
  signalCount d' = signalCount d →
  counter_within n d → counter_within (n + 1) d'.
Proof. intros Hp Hc [H0 Hn]. unfold counter_within. rewrite Hp, Hc. lia. Qed.

Section Names.
Context `{StdSort}.

Lemma store_signal_names_ok (rx : Reading) (now : Z) (d : Device) (n : Z) :
  names_ok d → counter_within n d → n + 1 < 2 ^ 31 →
  let d' := fst (store_signal (newSignal_of rx now d)
                   (set_signalCount (int_of (signalCount d + 1)) d)) in
  names_ok d' ∧ counter_within (n + 1) d'.
Proof.
  intros Hd [H0 Hn] Hbound. pose proof Hd as (Hl & Hb & Hnd).
  set (new := newSignal_of rx now d).
  set (d0 := set_signalCount (int_of (signalCount d + 1)) d).
  assert (signalCount d0 = signalCount d + 1) as Hc0.
  { unfold d0. cbn. apply int_of_small. lia. }
  assert (names_ok d0) as Hd0.
  { revert Hd. apply names_ok_frame; [done|done|lia]. }
  set (d1 := if AUTO_CLEANUP_THRESHOLD <=? size_of (storedSignals d0)
             then performAutoCleanup d0 else d0).
  assert (storedSignals d1 ⊆+ storedSignals d) as Hsub.
  { unfold d1. case_match; [|done]. apply cleanup_signals_submseteq. }
  assert (signalCount d1 = signalCount d + 1) as Hc1.
  { unfold d1. by case_match. }
  assert (names_ok d1 ∧ counter_within (n + 1) d1) as [Hd1 Hw1].
  { unfold d1. case_match.
    - split.
      + apply (names_ok_sub _ d); [done|apply cleanup_signals_submseteq|].
        lia.
      + apply counter_within_saved. lia.
    - split; [done|]. unfold counter_within.
      change (preferences d0) with (preferences d). lia. }
  intros d'. unfold d'.
  destruct (store_signal_cases new d0)
    as [[_ ->]|[(_ & _ & ->)|(_ & _ & ->)]]; cbn [fst].
  - split; [done|]. unfold counter_within.
    change (preferences d0) with (preferences d). lia.
  - by split.
  - fold d1. split; [|apply counter_within_saved; lia].
    apply (names_ok_saved _ _ (signalCount d + 1)); [|lia|].
    + apply Forall_app. split.
      * apply Forall_forall. intros s Hs. rewrite Forall_forall in Hl.
        apply (auto_named_mono (getInt "nextId" 0 (preferences d)));
          [lia|].
        apply Hl. by eapply elem_of_submseteq.
      * apply Forall_singleton. exists (signalCount d). split; [lia|done].
    + rewrite fmap_app. apply NoDup_app. split_and!.
      * eapply NoDup_submseteq_inv; [|exact Hnd]. by apply fmap_submseteq.
      * intros m Hm ->%list_elem_of_singleton.
        apply list_elem_of_fmap in Hm as (s & Hname & Hs).
        rewrite Forall_forall in Hl.
        destruct (Hl s) as (k & Hk & Hsk); [by eapply elem_of_submseteq|].
        rewrite Hsk in Hname. cbn in Hname.
        apply signal_name_inj, (inj pretty) in Hname. lia.
      * apply NoDup_singleton.
Qed.

Lemma step_names_ok (r : Request) (d : Device) (n : Z) :
  is_rename r = false → Inv d → names_ok d → counter_within n d →
  n + 1 < 2 ^ 31 →
  names_ok (step r d) ∧ counter_within (n + 1) (step r d).
Proof.
  intros Hr HI Hd Hw Hbound. pose proof Hd as (Hl & Hb & Hnd).
  pose proof Hw as [H0 Hn].
  assert (counter_within (n + 1) d) as Hw' by (unfold counter_within; lia).
  destruct r as [rx now later|e|e|e|id|id|id m|id f| | |days now|];
    cbn [step]; try discriminate Hr.
  - unfold loop. destruct rx as [rx|]; [|done].
    destruct (sniffingEnabled d); [|done].
    destruct (decide (rx_value rx = 0)) as [Hv|Hv].
    { by rewrite handleReceivedSignal_zero. }
    rewrite handleReceivedSignal_nonzero by done. cbn [fst].
    destruct (store_signal_names_ok rx now d n Hd Hw Hbound) as [Hd1 Hw1].
    destruct (receive_feedback_frame
      (fst (store_signal (newSignal_of rx now d)
              (set_signalCount (int_of (signalCount d + 1)) d))))
      as (Hs & Hp & _ & Hc).
    split.
    + revert Hd1. apply names_ok_frame; cbn; rewrite ?Hs, ?Hp, ?Hc; done.
    + destruct Hw1 as [Ha Hb1]. unfold counter_within. cbn.
      rewrite Hp, Hc. done.
  - destruct e as [v|]; [|done]. split.
    + revert Hd. apply names_ok_frame; [done| |done].
      apply nextId_insert_flag. unfold flag_key. tauto.
    + revert Hw. apply counter_within_frame; [|done].
      apply nextId_insert_flag. unfold flag_key. tauto.
  - destruct e as [v|]; [|done]. split.
    + revert Hd. apply names_ok_frame; [done| |done].
      apply nextId_insert_flag. unfold flag_key. tauto.
    + revert Hw. apply counter_within_frame; [|done].
      apply nextId_insert_flag. unfold flag_key. tauto.
  - destruct e as [v|]; [|done]. split.
    + revert Hd. apply names_ok_frame; [done| |done].
      apply nextId_insert_flag. unfold flag_key. tauto.
    + revert Hw. apply counter_within_frame; [|done].
      apply nextId_insert_flag. unfold flag_key. tauto.
  - unfold api_transmit. destruct id as [id|]; [|done].
    destruct (valid_id id d); [|done].
    destruct (storedSignals d !! Z.to_nat id) as [s|]; [|done]. cbn [fst].
    destruct (transmitSignal_frame s d) as [Hs Hp].
    assert (signalCount (transmitSignal s d) = signalCount d) as Hc.
    { unfold transmitSignal. cbn.
      by destruct (buzzerEnabled d); cbn; destruct (ledEnabled d). }
    split.
    + revert Hd. apply names_ok_frame; rewrite ?Hs, ?Hp, ?Hc; done.
    + revert Hw. apply counter_within_frame; by rewrite ?Hp.
  - unfold api_delete. destruct id as [id|]; [|done].
    destruct (valid_id id d); [|done]. cbn [fst].
    split; [|apply counter_within_saved; lia].
    apply (names_ok_sub _ d); [done| |done].
    apply sublist_submseteq, sublist_delete.
  - unfold api_favorite. destruct id as [id|], f as [f|]; try done.
    destruct (valid_id id d); [|done]. cbn [fst].
    split; [|apply counter_within_saved; lia].
    apply (names_ok_saved _ _ (getInt "nextId" 0 (preferences d)));
      [|done|].
    + apply Forall_alter; [done|]. by intros s _ Hs.
    + by rewrite fmap_alter_same.
  - unfold api_clear. cbn [fst]. split.
    + apply (names_ok_saved [] (set_signalCount 0 d) 0); [done|done|].
      constructor.
    + apply (counter_within_saved [] (set_signalCount 0 d)). cbn. lia.
  - split; [|apply counter_within_saved; lia].
    apply (names_ok_sub _ d); [done|apply cleanup_signals_submseteq|done].
  - unfold api_cleanup_old. cbn [fst].
    split; [|apply counter_within_saved; lia].
    apply (names_ok_sub _ d); [done| |done].
    apply sublist_submseteq, purge_old_sublist.
  - destruct HI as [_ _ _ Hsync].
    assert (signalCount (setup (preferences d))
            = getInt "nextId" 0 (preferences d)) as Hc by done.
    destruct (setup_flags (preferences d)) as (_ & _ & _ & Hp).
    split.
    + unfold names_ok. rewrite setup_storedSignals, Hsync, Hp, Hc. done.
    + unfold counter_within. rewrite Hp, Hc. lia.
Qed.

(** X22: as long as no rename request is served and the device has served
    fewer than [2^31] loop passes and requests since its first boot (so
    that the [int] name counter cannot have overflowed), the stored
    signals have pairwise distinct names: each Signal_<n> is given once,
    "clear all", which restarts the numbering, only does so on an empty
    vector, and a reboot falls back to a number above those in use. *)
Theorem automatic_names_distinct (rs : list Request) :
  Forall (λ r, is_rename r = false) rs →
  Z.of_nat (length rs) < 2 ^ 31 →
  NoDup (name <$> storedSignals (run rs (setup ∅))).
Proof.
  intros Hrs Hlen.
  assert (∀ d n, Inv d → names_ok d → counter_within n d → 0 ≤ n →
            n + Z.of_nat (length rs) < 2 ^ 31 → names_ok (run rs d))
    as Hrun.
  { clear Hlen.
    induction Hrs as [|r rs Hr _ IH]; intros d n HI Hd Hw Hn Hlen; [done|].
    cbn [length] in Hlen.
    destruct (step_names_ok r d n Hr HI Hd Hw) as [Hd' Hw']; [lia|].
    cbn. apply (IH _ (n + 1)); [by apply step_Inv|done|done|lia|lia]. }
  destruct (Hrun (setup ∅) 0) as (_ & _ & Hnd); [| | |done|lia|done].
  - apply Reachable_Inv, Reachable_boot.
  - split_and!; [done|done|constructor].
  - done.
Qed.

End Names.

Lemma automatic_names_distinct_witness :
  NoDup (name <$> storedSignals
           (run [LoopPass (Some new_reading) 1 2;
                 LoopPass (Some repeated_reading) 3 4;
                 ApiDelete (Some 0);
                 Reboot;
                 LoopPass (Some new_reading) 5 6]
              (setup ∅))).
Proof.
  apply automatic_names_distinct.
  - repeat (constructor; [reflexivity|]). constructor.
  - done.
Defined.

(** ** Two more edges *)

(** X23: an age limit of 50 to 99 days does not fit [unsigned long]
    milliseconds and is taken modulo [2^32] ms (about 49.7 days): the purge
    then keeps only the favorites and the signals captured at most
    [daysOld] days minus [2^32] ms ago, so that "50 days" erases what is
    older than 6 h 57 min. *)
Theorem purge_limit_wraps (d : Device) (daysOld now : Z) :
  50 ≤ daysOld ≤ 99 →
  daysOld * 24 * 60 * 60 * 1000 - ULONG_MODULUS ≤ now < ULONG_MODULUS →
  storedSignals (fst (api_cleanup_old (Some daysOld) now d))
  = filter (λ s, isFavorite s = true
                 ∨ now - timestamp s
                   ≤ daysOld * 24 * 60 * 60 * 1000 - ULONG_MODULUS)
      (storedSignals d).
Proof.
  intros Hdays Hnow. unfold api_cleanup_old. cbn [fst].
  rewrite saved_storedSignals. cbn [storedSignals set_storedSignals].
  rewrite purge_old_filter.
  assert (cutoffTime now daysOld
          = now - (daysOld * 24 * 60 * 60 * 1000 - ULONG_MODULUS)) as ->.
  { unfold cutoffTime, ULONG_MODULUS in *.
    replace ((daysOld * 24 * 60 * 60 * 1000) mod 2 ^ 32)
      with (daysOld * 24 * 60 * 60 * 1000 - 2 ^ 32).
    - apply Z.mod_small. lia.
    - apply Z.mod_unique with (q := 1); lia. }
  apply list_filter_iff. intros s. split; (intros [?|?]; [by left|right; lia]).
Qed.

Lemma purge_limit_wraps_witness :
  storedSignals
    (fst (api_cleanup_old (Some 50) 90000000
            (device_with [sample 0 1000 false; sample 1 80000000 false])))
  = [sample 1 80000000 false].
Proof.
  rewrite (purge_limit_wraps _ 50 90000000).
  - vm_compute. done.
  - lia.
  - vm_compute. split; [discriminate|done].
Defined.

Section Startup.
Context `{StdSort}.

(** X24: the start-up sound does not look at the buzzer setting: after the
    buzzer has been turned off, a reboot still plays it (750 ms of tones
    and pauses), as the only output of the boot, and the buzzer setting is
    still off afterwards. *)
Theorem startup_sound_ignores_buzzer_setting (d : Device) (v : string) :
  v ≠ "true" →
  let d' := step Reboot (step (ApiBuzzer (Some v)) d) in
  outputs d' = [PlayStartupSound]
  ∧ buzzerEnabled d' = false
  ∧ delayed (outputs d' ≫= hardware_of) = 750.
Proof.
  intros Hv d'.
  assert (outputs d' = [PlayStartupSound]) as Hout by done.
  rewrite Hout. split_and!; [done| |done].
  unfold d'. cbn [step]. unfold api_buzzer. cbn [fst].
  destruct (setup_flags
    (preferences
       (set_preferences
          (putBool "buzzerEnabled" (String.eqb v "true")
             (preferences (set_buzzerEnabled (String.eqb v "true") d)))
          (set_buzzerEnabled (String.eqb v "true") d))))
    as (_ & -> & _).
  cbn [preferences set_preferences]. unfold getBool, putBool.
  rewrite lookup_insert_eq, eqb_true_decide.
  by apply bool_decide_eq_false_2.
Qed.

End Startup.

Lemma startup_sound_ignores_buzzer_setting_witness :
  outputs (step Reboot
             (step (ApiBuzzer (Some "false"))
                (device_with (fresh_archive 3))))
  = [PlayStartupSound].
Proof.
  by destruct (startup_sound_ignores_buzzer_setting
                 (device_with (fresh_archive 3)) "false")
    as (Hout & _).
Defined.
